(** * TrojanZoo: trigger optimisation, neuron selection and detection scoring

    A shallow embedding of the parts of
    [trojanvision/defenses/backdoor/abstract.py],
    [trojanvision/attacks/backdoor/trojannn.py] and
    [trojanvision/models/__init__.py] that carry the algorithmic content of
    the repository: the per-class mark optimisation loop of
    [ModelInspection], the class sweep and what [detect] does with its
    result, the labels of [InputFiltering] and [TrainingFiltering], the
    construction guard, neuron selection, neuron value and mark
    preprocessing of [TrojanNN], and the resolution of model names.

    Tensors are nested lists of Python floats.  A Python float is modelled
    by its comparison and special-value behaviour (finite values are exact
    rationals, kept in lowest terms; rounding and overflow are not
    modelled), which is all the
    control flow of the loops depends on.  The deep-learning framework
    (model forward pass, criterion, autograd and Adam, random numbers) is an
    interface, [Backend], that the loops are parameterised by. *)

From Stdlib Require Import String Ascii.
From Stdlib Require Import Reals Lra.
From Stdlib Require Import List Bool Arith Lia ZArith QArith Qabs.
From Stdlib Require Import Sorted Permutation.
Import ListNotations.

Set Implicit Arguments.

Open Scope nat_scope.

(* ================================================================== *)
(** ** Python floats *)

Inductive pyfloat : Type :=
| Fin (q : Q)
| PInf
| NInf
| NaN.

Definition f0 : pyfloat := Fin 0%Q.
Definition f1 : pyfloat := Fin 1%Q.
Definition fhalf : pyfloat := Fin (1 # 2)%Q.

Definition is_nan (x : pyfloat) : bool :=
  match x with NaN => true | _ => false end.

(** [Qlt_b a b] is [a < b] on rationals. *)
Definition Qlt_b (a b : Q) : bool := negb (Qle_bool b a).

(** [x < y] on floats: every comparison with NaN is false. *)
Definition flt (x y : pyfloat) : bool :=
  match x, y with
  | NaN, _ | _, NaN => false
  | Fin a, Fin b => Qlt_b a b
  | NInf, NInf => false
  | NInf, _ => true
  | _, NInf => false
  | PInf, _ => false
  | Fin _, PInf => true
  end.

(** [x <= y] on floats. *)
Definition fle (x y : pyfloat) : bool :=
  match x, y with
  | NaN, _ | _, NaN => false
  | Fin a, Fin b => Qle_bool a b
  | NInf, _ => true
  | _, NInf => false
  | _, PInf => true
  | PInf, Fin _ => false
  end.

(** [x != 0], the truth value of a float ([NaN] and the infinities are
    truthy). *)
Definition fnonzero (x : pyfloat) : bool :=
  match x with
  | Fin q => negb (Qeq_bool q 0%Q)
  | _ => true
  end.

Definition fabs (x : pyfloat) : pyfloat :=
  match x with
  | Fin q => Fin (Qabs q)
  | PInf | NInf => PInf
  | NaN => NaN
  end.

Definition fneg (x : pyfloat) : pyfloat :=
  match x with
  | Fin q => Fin (- q)%Q
  | PInf => NInf
  | NInf => PInf
  | NaN => NaN
  end.

Definition fadd (x y : pyfloat) : pyfloat :=
  match x, y with
  | NaN, _ | _, NaN => NaN
  | Fin a, Fin b => Fin (Qred (a + b))
  | PInf, NInf | NInf, PInf => NaN
  | PInf, _ | _, PInf => PInf
  | NInf, _ | _, NInf => NInf
  end.

Definition fsub (x y : pyfloat) : pyfloat := fadd x (fneg y).

(** Sign of a float: [Some Gt], [Some Lt], [Some Eq] (zero), [None] (NaN). *)
Definition fsign (x : pyfloat) : option comparison :=
  match x with
  | Fin q => Some (Qcompare q 0%Q)
  | PInf => Some Gt
  | NInf => Some Lt
  | NaN => None
  end.

Definition fmul (x y : pyfloat) : pyfloat :=
  match x, y with
  | Fin a, Fin b => Fin (Qred (a * b))
  | _, _ =>
      match fsign x, fsign y with
      | Some Eq, _ | _, Some Eq => NaN      (* 0 * inf *)
      | Some Gt, Some Gt | Some Lt, Some Lt => PInf
      | Some Gt, Some Lt | Some Lt, Some Gt => NInf
      | None, _ | _, None => NaN
      end
  end.

Definition of_nat (n : nat) : pyfloat := Fin (inject_Z (Z.of_nat n)).

(** The mean of [n] samples whose sum is [s]; the mean of no sample is
    not a number. *)
Definition fdiv_nat (s : pyfloat) (n : nat) : pyfloat :=
  match n with
  | O => NaN
  | S _ => fmul s (Fin (1 # Pos.of_nat n)%Q)
  end.

Definition fsum (l : list pyfloat) : pyfloat := fold_left fadd l f0.

(** [Tensor.mean()] of a flat tensor. *)
Definition fmean (l : list pyfloat) : pyfloat := fdiv_nat (fsum l) (length l).

(** The order [Tensor.sort] uses: ascending, NaN greater than everything. *)
Definition fsort_le (x y : pyfloat) : bool :=
  match x, y with
  | _, NaN => true
  | NaN, _ => false
  | _, _ => fle x y
  end.

(* ================================================================== *)
(** ** Exceptions *)

Inductive exn : Type :=
| Exception (msg : string)
| TypeError
| IndexError
| RuntimeError.

Inductive Res (A : Type) : Type :=
| Ok (a : A)
| Raise (e : exn).

Arguments Ok {A} a.
Arguments Raise {A} e.

(* ================================================================== *)
(** ** Tensors *)

(** A mark is a [(C + 1, H, W)] tensor: a list of channels, each a list of
    rows.  The last channel is the alpha/mask channel. *)
Definition channel : Type := list (list pyfloat).
Definition tensor : Type := list channel.

(** The (possibly ragged) shape of a nested list. *)
Definition shape_of (t : tensor) : list (list nat) :=
  map (fun ch => map (fun row => length row) ch) t.

(** The shape [(c, h, w)]. *)
Definition shape3 (c h w : nat) : list (list nat) := repeat (repeat w h) c.

Definition has_shape (c h w : nat) (t : tensor) : Prop :=
  shape_of t = shape3 c h w.

(** Element-wise application. *)
Definition tmap (f : pyfloat -> pyfloat) (t : tensor) : tensor :=
  map (map (map f)) t.

(** [torch.zeros(c, h, w)]. *)
Definition zeros (c h w : nat) : tensor := repeat (repeat (repeat f0 w) h) c.

(** [ch.norm(p=1)]: the sum of absolute values. *)
Definition norm_p1 (ch : channel) : pyfloat := fsum (map fabs (concat ch)).

(** [t[-1]]. *)
Definition getitem_last (t : tensor) : Res channel :=
  match rev t with
  | [] => Raise IndexError
  | ch :: _ => Ok ch
  end.

(** [t[:-1]]. *)
Definition slice_init (t : tensor) : tensor := removelast t.

(** [t[:-1] = v]: the channels but the last are overwritten in place; the
    shapes must agree. *)
Definition setitem_init (t v : tensor) : Res tensor :=
  if list_eq_dec (list_eq_dec Nat.eq_dec) (shape_of v) (shape_of (removelast t))
  then Ok (v ++ skipn (length t - 1) t)
  else Raise RuntimeError.

(* ================================================================== *)
(** ** The bounded reparameterisation *)

(** Modelled from the spec: [trojanzoo.utils.tensor.tanh_func] is not among
    the sources.  The mask is "always produced via a smooth bounded
    reparameterization (tanh) of an unconstrained parameter, so mask values
    stay in [0,1]": the affine image of [tanh] onto the unit interval,
    [(tanh x + 1) * 0.5].  It is stated once, over any scalar type with a
    [tanh], an addition, a product and the constants one and one half. *)
Definition tanh_func_on {A : Type} (tanh : A -> A) (add mul : A -> A -> A)
  (one half : A) (x : A) : A :=
  mul (add (tanh x) one) half.

(** The reparameterisation of a real number. *)
Definition tanh_func_R (x : R) : R :=
  tanh_func_on Rtrigo_def.tanh Rplus Rmult 1%R (/ 2)%R x.

(* ================================================================== *)
(** ** The running-mean accumulator *)

(** Modelled from the spec: [trojanzoo.utils.logger.AverageMeter] is not
    among the sources.  It is "an accumulator of a running mean/count for a
    named metric over a loop; reset per epoch; read at epoch end":
    [update val n] adds [n] samples of value [val], and [avg] is the mean of
    the samples since the last [reset]. *)
Module AverageMeter.

Record t : Type := mk {
  avg : pyfloat;
  sum : pyfloat;
  count : nat
}.

Definition reset : t := {| avg := f0; sum := f0; count := 0 |}.

Definition update (m : t) (val : pyfloat) (n : nat) : t :=
  let s := fadd (sum m) (fmul val (of_nat n)) in
  let c := count m + n in
  {| avg := fdiv_nat s c; sum := s; count := c |}.

End AverageMeter.

(* ================================================================== *)
(** ** The deep-learning framework, as an interface *)

(** A tensor of two dimensions, or one of more than two with the trailing
    dimensions already flattened into the third ([flatten(2)]). *)
Inductive ndtensor : Type :=
| Dim2 (m : list (list pyfloat))
| DimN (t : list (list (list pyfloat))).

(** What the loops call in the framework and in the attack object.  The
    model is frozen; [add_mark] reads the current mark; [backward_step] is
    [loss.backward()] followed by [optimizer.step()] and
    [optimizer.zero_grad()] for the objective given as a function of the
    optimised parameter; iterating a data loader may consume randomness. *)
Class Backend : Type := {
  Inp : Type;
  Outp : Type;
  Rng : Type;
  Opt : Type;
  torch_tanh : pyfloat -> pyfloat;
  randn : Rng -> pyfloat * Rng;
  train_loader : Rng -> list (Inp * list nat) * Rng;
  model : Inp -> Outp;
  argmax1 : Outp -> list nat;
  criterion : Outp -> list nat -> pyfloat;
  add_mark : tensor -> Inp -> Inp;
  add_mark_alpha1 : tensor -> Inp -> Inp;
  get_layer : Inp -> ndtensor;
  data_zeros : Inp;
  Adam : Opt;
  backward_step : Opt -> (tensor -> Res pyfloat) -> tensor -> tensor * Opt
}.

(** Autograd and the optimiser keep the shape of the parameter they
    update. *)
Class ShapePreserving (B : Backend) : Prop :=
  backward_step_shape :
    forall (o : Opt) (f : tensor -> Res pyfloat) (a : tensor),
      shape_of (fst (backward_step o f a)) = shape_of a.

(** The mutable state shared by the attack and the defenses: the mark
    tensor [attack.mark.mark] (which [optimize_mark] may leave at [None])
    and the random generator. *)
Record World {B : Backend} : Type := mkWorld {
  mark : option tensor;
  gen : Rng
}.

Section Loops.

Context {B : Backend}.

(** Computations that read and write the world and may raise. *)
Definition M (A : Type) : Type := World -> Res (A * World).

Definition ret {A : Type} (a : A) : M A := fun w => Ok (a, w).

Definition bind {A C : Type} (m : M A) (k : A -> M C) : M C :=
  fun w => match m w with
           | Ok (a, w') => k a w'
           | Raise e => Raise e
           end.

Definition raise {A : Type} (e : exn) : M A := fun _ => Raise e.

Definition lift {A : Type} (r : Res A) : M A :=
  fun w => match r with Ok a => Ok (a, w) | Raise e => Raise e end.

(** Reading [mark.mark] where a tensor is required. *)
Definition get_mark : M tensor :=
  fun w => match mark w with
           | Some t => Ok (t, w)
           | None => Raise TypeError
           end.

Definition set_mark (t : option tensor) : M unit :=
  fun w => Ok (tt, {| mark := t; gen := gen w |}).

Definition with_gen {A : Type} (f : Rng -> A * Rng) : M A :=
  fun w => let (a, g) := f (gen w) in Ok (a, {| mark := mark w; gen := g |}).

End Loops.

Notation "x <- m ;; k" := (bind m (fun x => k))
  (at level 61, m at next level, right associativity).
Notation "m ;;; k" := (bind m (fun _ => k))
  (at level 61, right associativity).

Section Tensors.

Context {B : Backend}.

(** Modelled from the spec: [tanh_func] on a tensor, element by element. *)
Definition tanh_func (t : tensor) : tensor :=
  tmap (tanh_func_on torch_tanh fadd fmul f1 fhalf) t.

(** One draw per element, in order. *)
Fixpoint randn_row (r : list pyfloat) (g : Rng) : list pyfloat * Rng :=
  match r with
  | [] => ([], g)
  | _ :: r' =>
      let (x, g1) := randn g in
      let (xs, g2) := randn_row r' g1 in
      (x :: xs, g2)
  end.

Fixpoint randn_channel (ch : channel) (g : Rng) : channel * Rng :=
  match ch with
  | [] => ([], g)
  | r :: ch' =>
      let (x, g1) := randn_row r g in
      let (xs, g2) := randn_channel ch' g1 in
      (x :: xs, g2)
  end.

(** [torch.randn_like(t)]. *)
Fixpoint randn_like (t : tensor) (g : Rng) : tensor * Rng :=
  match t with
  | [] => ([], g)
  | ch :: t' =>
      let (x, g1) := randn_channel ch g in
      let (xs, g2) := randn_like t' g1 in
      (x :: xs, g2)
  end.

End Tensors.

(* ================================================================== *)
(** ** ModelInspection: reverse-engineering a mark per class *)

(** The configuration of a [ModelInspection] defense.  [check_early_stop]
    is the overridable hook, called with the epoch's [loss], [acc], [norm]
    and [entropy]; [num_classes] is [model.num_classes]. *)
Record ModelInspection : Type := {
  defense_remask_epoch : nat;
  cost : pyfloat;
  num_classes : nat;
  check_early_stop : pyfloat -> pyfloat -> pyfloat -> pyfloat -> bool
}.

(** [ModelInspection.check_early_stop]: the base class never stops early. *)
Definition check_early_stop_base (loss acc norm entropy : pyfloat) : bool :=
  false.

(** The four meters of [optimize_mark]. *)
Record meters : Type := {
  losses : AverageMeter.t;
  entropy : AverageMeter.t;
  norm : AverageMeter.t;
  acc : AverageMeter.t
}.

Definition reset_meters : meters :=
  {| losses := AverageMeter.reset; entropy := AverageMeter.reset;
     norm := AverageMeter.reset; acc := AverageMeter.reset |}.

(** The best optimisation result so far. *)
Record best : Type := {
  norm_best : pyfloat;
  mark_best : option tensor;
  entropy_best : option pyfloat
}.

(** "best optimization results" before the first epoch. *)
Definition best0 : best :=
  {| norm_best := PInf; mark_best := None; entropy_best := None |}.

(** The local variables of [optimize_mark] that live across iterations:
    the optimised parameter, the optimiser, the meters and the best
    result. *)
Record mark_loop {B : Backend} : Type := {
  atanh_mark : tensor;
  optimizer : Opt;
  ms : meters;
  bst : best
}.

Section Inspection.

Context {B : Backend}.
Variable self : ModelInspection.

(** [x.eq(y).float()] on two label vectors of one length. *)
Definition eq_float (x y : list nat) : list pyfloat :=
  map (fun p => if Nat.eqb (fst p) (snd p) then f1 else f0) (combine x y).

(** [ModelInspection.loss_fn], reading the mark [mk] through [add_mark];
    [target * torch.ones_like(_label)] is [target] once per label. *)
Definition loss_fn (mk : tensor) (_input : Inp) (_label : list nat)
  (target : nat) (trigger_output : option Outp) : pyfloat :=
  let trigger_output :=
    match trigger_output with
    | None => model (add_mark mk _input)
    | Some o => o
    end in
  criterion trigger_output (map (fun _ => target) _label).

(** [batch_loss] as computed in the loop body from the mark. *)
Definition batch_loss_of (label : nat) (_input : Inp) (_label : list nat)
  (mk : tensor) : Res pyfloat :=
  let trigger_input := add_mark mk _input in
  let trigger_output := model trigger_input in
  let batch_entropy := loss_fn mk _input _label label (Some trigger_output) in
  match getitem_last mk with
  | Raise e => Raise e
  | Ok ch =>
      let batch_norm := norm_p1 ch in
      Ok (fadd batch_entropy (fmul (cost self) batch_norm))
  end.

(** One pass of the body of [for data in loader]. *)
Definition batch_step (label : nat) (st : mark_loop) (data : Inp * list nat)
  : M mark_loop :=
  let (_input, _label) := data in
  mk <- get_mark ;;
  let trigger_input := add_mark mk _input in
  let trigger_label := map (fun _ => label) _label in
  let trigger_output := model trigger_input in
  let batch_acc := fmean (eq_float trigger_label (argmax1 trigger_output)) in
  let batch_entropy := loss_fn mk _input _label label (Some trigger_output) in
  ch <- lift (getitem_last mk) ;;
  let batch_norm := norm_p1 ch in
  let batch_loss := fadd batch_entropy (fmul (cost self) batch_norm) in
  let batch_size := length _label in
  let m := ms st in
  let m' :=
    {| acc := AverageMeter.update (acc m) batch_acc batch_size;
       entropy := AverageMeter.update (entropy m) batch_entropy batch_size;
       norm := AverageMeter.update (norm m) batch_norm batch_size;
       losses := AverageMeter.update (losses m) batch_loss batch_size |} in
  let (a', o') :=
    backward_step (optimizer st)
      (fun a => batch_loss_of label _input _label (tanh_func a))
      (atanh_mark st) in
  set_mark (Some (tanh_func a')) ;;;
  ret {| atanh_mark := a'; optimizer := o'; ms := m'; bst := bst st |}.

(** [for data in loader: ...]. *)
Fixpoint batch_loop (label : nat) (loader : list (Inp * list nat))
  (st : mark_loop) : M mark_loop :=
  match loader with
  | [] => ret st
  | data :: rest =>
      st' <- batch_step label st data ;;
      batch_loop label rest st'
  end.

(** "check to save best mask or not": the comparison, then the guard that
    establishes a best when there is none. *)
Definition save_best (mk : tensor) (m : meters) (b : best) : best :=
  let b1 :=
    if flt (AverageMeter.avg (norm m)) (norm_best b)
    then {| mark_best := Some mk;
            norm_best := AverageMeter.avg (norm m);
            entropy_best := Some (AverageMeter.avg (entropy m)) |}
    else b in
  match mark_best b1 with
  | None => {| mark_best := Some mk;
               norm_best := AverageMeter.avg (norm m);
               entropy_best := Some (AverageMeter.avg (entropy m)) |}
  | Some _ => b1
  end.

(** The body of [for _epoch in range(defense_remask_epoch)]; the boolean
    is whether the body ended in [break]. *)
Definition epoch_body (label : nat) (st : mark_loop) : M (mark_loop * bool) :=
  let st0 := {| atanh_mark := atanh_mark st; optimizer := optimizer st;
                ms := reset_meters; bst := bst st |} in
  loader <- with_gen train_loader ;;
  st1 <- batch_loop label loader st0 ;;
  mk <- get_mark ;;
  let m := ms st1 in
  let st2 := {| atanh_mark := atanh_mark st1; optimizer := optimizer st1;
                ms := m; bst := save_best mk m (bst st1) |} in
  ret (st2,
       check_early_stop self (AverageMeter.avg (losses m))
         (AverageMeter.avg (acc m)) (AverageMeter.avg (norm m))
         (AverageMeter.avg (entropy m))).

(** [for _epoch in range(n): ...], with its [break]. *)
Fixpoint epoch_loop (label : nat) (n : nat) (st : mark_loop) : M mark_loop :=
  match n with
  | O => ret st
  | S n' =>
      r <- epoch_body label st ;;
      if snd r then ret (fst r) else epoch_loop label n' (fst r)
  end.

(** The state in which [optimize_mark] enters its epoch loop. *)
Definition optimize_init : M mark_loop :=
  mk <- get_mark ;;
  atanh <- with_gen (randn_like mk) ;;
  set_mark (Some (tanh_func atanh)) ;;;
  ret {| atanh_mark := atanh; optimizer := Adam; ms := reset_meters;
         bst := best0 |}.

(** [optimize_mark] up to the end of a loop of [n] epochs. *)
Definition optimize_run (label : nat) (n : nat) : M mark_loop :=
  st <- optimize_init ;;
  epoch_loop label n st.

(** [ModelInspection.optimize_mark] (the closing call of
    [attack.validate_fn], which prints the accuracy of the model under the
    mark left in the attack, is not modelled). *)
Definition optimize_mark (label : nat) : M (option tensor * option pyfloat) :=
  st <- optimize_run label (defense_remask_epoch self) ;;
  set_mark (mark_best (bst st)) ;;;
  ret (mark_best (bst st), entropy_best (bst st)).

(** [torch.stack]: a non-empty list of tensors of one shape. *)
Fixpoint all_tensors (l : list (option tensor)) : Res (list tensor) :=
  match l with
  | [] => Ok []
  | None :: _ => Raise TypeError
  | Some t :: l' =>
      match all_tensors l' with
      | Ok ts => Ok (t :: ts)
      | Raise e => Raise e
      end
  end.

Definition same_shapeb (a b : tensor) : bool :=
  if list_eq_dec (list_eq_dec Nat.eq_dec) (shape_of a) (shape_of b)
  then true else false.

Definition torch_stack (l : list (option tensor)) : Res (list tensor) :=
  match all_tensors l with
  | Raise e => Raise e
  | Ok [] => Raise RuntimeError
  | Ok (t :: ts) =>
      if forallb (same_shapeb t) ts then Ok (t :: ts) else Raise RuntimeError
  end.

(** [torch.as_tensor] of a list of floats. *)
Fixpoint torch_as_tensor (l : list (option pyfloat)) : Res (list pyfloat) :=
  match l with
  | [] => Ok []
  | None :: _ => Raise TypeError
  | Some x :: l' =>
      match torch_as_tensor l' with
      | Ok xs => Ok (x :: xs)
      | Raise e => Raise e
      end
  end.

(** [for label in range(num_classes): ...] of [get_mark_loss_list], over
    the labels still to do. *)
Fixpoint sweep_loop (labels : list nat)
  (mark_list : list (option tensor)) (loss_list : list (option pyfloat))
  : M (list (option tensor) * list (option pyfloat)) :=
  match labels with
  | [] => ret (mark_list, loss_list)
  | label :: rest =>
      r <- optimize_mark label ;;
      sweep_loop rest (mark_list ++ [fst r]) (loss_list ++ [snd r])
  end.

(** [ModelInspection.get_mark_loss_list].  Not modelled: the progress
    output, the Jaccard index printed after each class for a mark at a
    fixed position, and the incremental [np.savez] of the lists.  They
    read the mark that [optimize_mark] has left in the attack, which is a
    tensor once an epoch has run; nothing is stated below about a sweep
    with no epoch. *)
Definition get_mark_loss_list : M (list tensor * list pyfloat) :=
  r <- sweep_loop (seq 0 (num_classes self)) [] [] ;;
  mark_list <- lift (torch_stack (fst r)) ;;
  loss_list <- lift (torch_as_tensor (snd r)) ;;
  ret (mark_list, loss_list).

(** The part of [ModelInspection.detect] that replaces the attack's mark by
    a zero mark covering the whole image ([new_dict], with the channel
    count of the old mark and the height and width of the data) before the
    sweep. *)
Definition detect_new_mark (data_height data_width : nat) : M unit :=
  mk <- get_mark ;;
  set_mark (Some (zeros (length mk) data_height data_width)).

(** [detect] up to the sweep: the new mark, then [get_mark_loss_list]. *)
Definition detect_sweep (data_height data_width : nat)
  : M (list tensor * list pyfloat) :=
  detect_new_mark data_height data_width ;;;
  get_mark_loss_list.

End Inspection.

(* ================================================================== *)
(** ** InputFiltering: from scores to labels *)

(** [torch.cat([a, b])] of two flat tensors. *)
Definition torch_cat (a b : list pyfloat) : list pyfloat := a ++ b.

(** [Tensor.bool()]: an element is [True] when it is not zero. *)
Definition to_bool (l : list pyfloat) : list bool := map fnonzero l.

(** [InputFiltering.score2label], the default implementation. *)
Definition score2label (clean_scores poison_scores : list pyfloat)
  : list bool :=
  to_bool (torch_cat clean_scores poison_scores).

(** The scores reach [score2label] sorted in ascending order
    ([Tensor.sort()[0]]). *)
Definition sorted_scores (l : list pyfloat) : Prop :=
  StronglySorted (fun x y => fsort_le x y = true) l.

(** Two score sets with no value in common. *)
Definition disjoint_scores (a b : list pyfloat) : Prop :=
  forall x y, In x a -> In y b -> x <> y.

(* ================================================================== *)
(** ** TrojanNN *)

(** The flags of the attack's watermark that [TrojanNN.__init__] reads. *)
Record Watermark : Type := {
  mark_random_init : bool;
  mark_random_pos : bool
}.

Record TrojanNN : Type := {
  preprocess_layer : string;
  preprocess_next_layer : string;
  target_value : pyfloat;
  neuron_num : nat;
  neuron_lr : pyfloat;
  neuron_epoch : nat;
  neuron_idx : option (list nat)
}.

(** The two messages of [TrojanNN.__init__] (the double quotes around the
    flag names are written as single quotes). *)
Definition msg_random_init : string :=
  "TrojanNN requires 'mark_random_init' to be True to initialize watermark.".
Definition msg_random_pos : string :=
  "TrojanNN requires 'mark_random_pos' to be False to max activate neurons.".

(** [TrojanNN.__init__], after [super().__init__] has built the watermark
    [wm].  No optimisation is part of it: it is a function of its
    arguments alone. *)
Definition TrojanNN_init (wm : Watermark)
  (preprocess_layer preprocess_next_layer : string) (target_value : pyfloat)
  (neuron_num : nat) (neuron_lr : pyfloat) (neuron_epoch : nat)
  : Res TrojanNN :=
  if negb (mark_random_init wm) then Raise (Exception msg_random_init)
  else if mark_random_pos wm then Raise (Exception msg_random_pos)
  else Ok {| preprocess_layer := preprocess_layer;
             preprocess_next_layer := preprocess_next_layer;
             target_value := target_value;
             neuron_num := neuron_num;
             neuron_lr := neuron_lr;
             neuron_epoch := neuron_epoch;
             neuron_idx := None |}.

(** The constructor with the defaults of its signature. *)
Definition TrojanNN_default (wm : Watermark) : Res TrojanNN :=
  TrojanNN_init wm "features" "classifier.fc" (Fin 100%Q) 2
    (Fin (1 # 10)%Q) 1000.

(** *** Neuron selection *)

(** [t.abs()]. *)
Definition nd_abs (t : ndtensor) : ndtensor :=
  match t with
  | Dim2 m => Dim2 (map (map fabs) m)
  | DimN t => DimN (map (map (map fabs)) t)
  end.

(** [if t.dim() > 2: t = t.flatten(2).mean(2)]. *)
Definition mean_trailing (t : ndtensor) : list (list pyfloat) :=
  match t with
  | Dim2 m => m
  | DimN t => map (map fmean) t
  end.

(** [m.mean(0)] of a matrix with at least one row: the mean of each
    column. *)
Definition mean0 (m : list (list pyfloat)) : list pyfloat :=
  map (fun j => fmean (map (fun row => nth j row NaN) m))
      (seq 0 (length (hd [] m))).

(** Insertion of an index into a list of indices sorted by key. *)
Fixpoint insert_idx (key : nat -> pyfloat) (i : nat) (l : list nat)
  : list nat :=
  match l with
  | [] => [i]
  | j :: l' =>
      if fsort_le (key i) (key j) then i :: l
      else j :: insert_idx key i l'
  end.

(** [v.argsort(descending=False)]: the indices of [v] by ascending value.
    Equal values keep their index order here; the framework leaves their
    order open. *)
Definition argsort (v : list pyfloat) : list nat :=
  fold_right (insert_idx (fun i => nth i v NaN)) [] (seq 0 (length v)).

(** The score [get_neuron_idx] ranks the neurons by: the mean absolute
    weight of the next layer, per input neuron. *)
Definition neuron_weight (weight : ndtensor) : list pyfloat :=
  mean0 (mean_trailing (nd_abs weight)).

(** [TrojanNN.get_neuron_idx]; [weight] is
    [model.state_dict()[preprocess_next_layer + '.weight']]. *)
Definition get_neuron_idx (self : TrojanNN) (weight : ndtensor) : list nat :=
  firstn (neuron_num self) (argsort (neuron_weight weight)).

(** What the specification describes instead: the mean absolute activation
    of each neuron of the chosen layer across the dataset, [acts] holding
    one row of activations per sample, and the [k] least activated
    neurons. *)
Definition mean_abs_activation (acts : list (list pyfloat)) : list pyfloat :=
  mean0 (map (map fabs) acts).

Definition least_activated_spec (k : nat) (acts : list (list pyfloat))
  : list nat :=
  firstn k (argsort (mean_abs_activation acts)).

(** [get_layer] returns the features of at least one input. *)
Definition nonempty_batch (t : ndtensor) : Prop :=
  match t with
  | Dim2 m => m <> []
  | DimN t => t <> []
  end.

(** *** Mark preprocessing *)

Section Preprocess.

Context {B : Backend}.
Variable self : TrojanNN.

Definition fsquare (x : pyfloat) : pyfloat := fmul x x.

(** The loss of one step of [preprocess_mark], from the mark. *)
Definition neuron_loss (mk : tensor) : Res pyfloat :=
  let trigger_input := add_mark_alpha1 mk data_zeros in
  let trigger_feats := mean_trailing (nd_abs (get_layer trigger_input)) in
  match trigger_feats with
  | [] => Raise IndexError
  | row :: _ =>
      Ok (fsum (map (fun x => fsquare (fsub x (target_value self))) row))
  end.

(** The body of [for _ in range(neuron_epoch)]; the state is the optimised
    parameter and the optimiser. *)
Definition preprocess_step (st : tensor * Opt) : M (tensor * Opt) :=
  let (atanh, opt) := st in
  mk <- get_mark ;;
  mk' <- lift (setitem_init mk (tanh_func atanh)) ;;
  set_mark (Some mk') ;;;
  loss <- lift (neuron_loss mk') ;;
  let objective := fun a =>
    match setitem_init mk' (tanh_func a) with
    | Ok m => neuron_loss m
    | Raise e => Raise e
    end in
  ret (backward_step opt objective atanh).

Fixpoint preprocess_loop (n : nat) (st : tensor * Opt) : M (tensor * Opt) :=
  match n with
  | O => ret st
  | S n' =>
      st' <- preprocess_step st ;;
      preprocess_loop n' st'
  end.

(** [TrojanNN.preprocess_mark] (the argument [neuron_idx] is only used to
    print the neuron value before the loop). *)
Definition preprocess_mark : M unit :=
  mk <- get_mark ;;
  atanh <- with_gen (randn_like (slice_init mk)) ;;
  st <- preprocess_loop (neuron_epoch self) (atanh, Adam) ;;
  mk1 <- get_mark ;;
  mk2 <- lift (setitem_init mk1 (tanh_func (fst st))) ;;
  set_mark (Some mk2).

End Preprocess.

(* ================================================================== *)
(** ** Invariants of the optimisation loop *)

Section Invariants.

Context {B : Backend}.
Variable self : ModelInspection.

(** Between two inner iterations the mark is the reparameterised
    parameter, whose shape is [s]. *)
Definition loop_inv (s : list (list nat)) (st : mark_loop) (w : World)
  : Prop :=
  shape_of (atanh_mark st) = s /\ mark w = Some (tanh_func (atanh_mark st)).

(** The loss the specification gives for a batch, as a function of the
    mark: the classification loss towards [label] of the inputs with the
    mark applied, plus the cost times the L1 norm of the last channel of
    the mark. *)
Definition entropy_plus_cost_norm (label : nat) (data : Inp * list nat)
  (mk : tensor) : Res pyfloat :=
  match getitem_last mk with
  | Raise e => Raise e
  | Ok ch =>
      Ok (fadd (criterion (model (add_mark mk (fst data)))
                  (map (fun _ => label) (snd data)))
               (fmul (cost self) (norm_p1 ch)))
  end.

(** One step of the optimiser on that loss of the reparameterised
    parameter, for the batch [data]. *)
Definition descent_step (label : nat) (ao : tensor * Opt)
  (data : Inp * list nat) : tensor * Opt :=
  backward_step (snd ao)
    (fun a => entropy_plus_cost_norm label data (tanh_func a)) (fst ao).

(** The batches of [k] epochs in order: every epoch iterates the training
    loader anew. *)
Fixpoint epoch_batches (k : nat) (g : Rng) : list (Inp * list nat) :=
  match k with
  | O => []
  | S k' =>
      let (loader, g') := train_loader g in loader ++ epoch_batches k' g'
  end.

(** The best result that snapshots the mark [mk] with the meters [m]. *)
Definition snapshot (mk : tensor) (m : meters) : best :=
  {| norm_best := AverageMeter.avg (norm m);
     mark_best := Some mk;
     entropy_best := Some (AverageMeter.avg (entropy m)) |}.

(** A best result has been established and its norm is a number. *)
Definition established (b : best) : Prop :=
  mark_best b <> None /\ is_nan (norm_best b) = false.

End Invariants.

(* ================================================================== *)
(** ** A small concrete framework *)

(** A backend small enough to run: inputs and outputs are numbers, the
    generator counts draws, [tanh] is replaced by the bounded rational
    [x / (1 + |x|)], and an optimiser step lowers every entry by one
    half.  With [diverge] set, a step turns every entry of the
    parameter into NaN, as a step along a NaN gradient does. *)
Module Toy.

Definition soft_tanh (x : pyfloat) : pyfloat :=
  match x with
  | Fin q => Fin (Qred (q / (1 + Qabs q)))
  | PInf => Fin 1%Q
  | NInf => Fin (- (1))%Q
  | NaN => NaN
  end.

Definition step (diverge : bool) (o : nat) (objective : tensor -> Res pyfloat)
  (a : tensor) : tensor * nat :=
  if diverge then (tmap (fun _ => NaN) a, S o)
  else match objective a with
       | Ok _ => (tmap (fun x => fsub x fhalf) a, S o)
       | Raise _ => (a, S o)
       end.

Definition backend (diverge : bool) : Backend := {|
  Inp := nat;
  Outp := nat;
  Rng := nat;
  Opt := nat;
  torch_tanh := soft_tanh;
  randn := fun g => (of_nat g, S g);
  train_loader := fun g => ([(0, [0; 1]); (1, [1])], g);
  model := fun i => i;
  argmax1 := fun o => [o; o];
  criterion := fun o l => of_nat (o + length l);
  add_mark := fun _ i => i;
  add_mark_alpha1 := fun _ i => i;
  get_layer := fun _ => Dim2 [[Fin 1%Q; Fin 2%Q]];
  data_zeros := 0;
  Adam := 0;
  backward_step := step diverge
|}.

(** A defense with [n] epochs over [k] classes, the base early-stop hook
    and the default cost. *)
Definition inspection (n k : nat) : ModelInspection := {|
  defense_remask_epoch := n;
  cost := Fin (1 # 1000)%Q;
  num_classes := k;
  check_early_stop := check_early_stop_base
|}.

(** A mark of one colour channel and the mask channel, on a 1 x 2 image. *)
Definition mark0 : tensor :=
  [ [[Fin (1 # 2)%Q; Fin (1 # 4)%Q]]; [[Fin 1%Q; Fin 0%Q]] ].

Definition world (diverge : bool) : @World (backend diverge) :=
  @mkWorld (backend diverge) (Some mark0) 0.

Definition attack : TrojanNN := {|
  preprocess_layer := "features";
  preprocess_next_layer := "classifier.fc";
  target_value := Fin 100%Q;
  neuron_num := 1;
  neuron_lr := Fin (1 # 10)%Q;
  neuron_epoch := 3;
  neuron_idx := None
|}.

(** A next-layer weight and a set of activations that rank two neurons in
    opposite orders. *)
Definition weight : ndtensor := Dim2 [[Fin 1%Q; Fin 5%Q]].
Definition activations : list (list pyfloat) := [[Fin 10%Q; Fin 0%Q]].

End Toy.

(* ================================================================== *)
(** ** Further exceptions *)

(** The exceptions of the code below that [exn] does not have. *)
Inductive error : Type :=
| Builtin (e : exn)
| KeyError (key : string)
| UnboundLocalError (name : string)
| ValueError
| OverflowError.

Inductive Result (A : Type) : Type :=
| Return (a : A)
| Throw (e : error).

Arguments Return {A} a.
Arguments Throw {A} e.

(** [d[key]] on a dict given as its items. *)
Fixpoint dict_get {V : Type} (d : list (string * V)) (key : string)
  : Result V :=
  match d with
  | [] => Throw (KeyError key)
  | (k, v) :: d' => if String.eqb k key then Return v else dict_get d' key
  end.

(* ================================================================== *)
(** ** Model names ([trojanvision/models/__init__.py]) *)

Module Models.

(** The model classes the package registers. *)
Inductive ModelType : Type :=
| AlexNet | BiT | DARTS | DenseNet | DLA | ENAS | MagNet | MNASNet | Net
| ProxylessNAS | ResNet | ResNetS | VGG.

Definition class_dict : list (string * ModelType) :=
  [ ("alexnet", AlexNet); ("bit", BiT); ("darts", DARTS);
    ("densenet", DenseNet); ("dla", DLA); ("enas", ENAS);
    ("magnet", MagNet); ("mnasnet", MNASNet); ("net", Net);
    ("proxylessnas", ProxylessNAS); ("resnet", ResNet);
    ("resnets", ResNetS); ("vgg", VGG) ]%string.

(** [A-Z], [a-z] and [A-Za-z]. *)
Definition is_upper (c : ascii) : bool :=
  (65 <=? nat_of_ascii c) && (nat_of_ascii c <=? 90).

Definition is_lower (c : ascii) : bool :=
  (97 <=? nat_of_ascii c) && (nat_of_ascii c <=? 122).

Definition is_letter (c : ascii) : bool := is_upper c || is_lower c.

(** [str.lower] on a character; only the letters [A-Z] change. *)
Definition lower_char (c : ascii) : ascii :=
  if is_upper c then ascii_of_nat (nat_of_ascii c + 32) else c.

Fixpoint lower (s : string) : string :=
  match s with
  | EmptyString => EmptyString
  | String c s' => String (lower_char c) (lower s')
  end.

(** [re.findall(r'[A-Za-z]+', s)]: the maximal runs of letters of [s], from
    left to right; [cur] is the run being read. *)
Fixpoint findall_letters (s : string) (cur : string) : list string :=
  match s with
  | EmptyString =>
      match cur with
      | EmptyString => []
      | _ => [cur]
      end
  | String c s' =>
      if is_letter c
      then findall_letters s' (cur ++ String c EmptyString)
      else match cur with
           | EmptyString => findall_letters s' EmptyString
           | _ => cur :: findall_letters s' EmptyString
           end
  end.

(** [get_model_class]: the first run of letters, in lower case;
    [IndexError] when the name has no letter. *)
Definition get_model_class (name : string) : Res string :=
  match findall_letters name EmptyString with
  | [] => Raise IndexError
  | m :: _ => Ok (lower m)
  end.

(** The class [create] instantiates for a model name:
    [class_dict[get_model_class(model_name)]]. *)
Definition create_model_type (model_name : string) : Result ModelType :=
  match get_model_class model_name with
  | Raise e => Throw (Builtin e)
  | Ok k => dict_get class_dict k
  end.

(** Every character of a string satisfies [p]. *)
Fixpoint string_forall (p : ascii -> bool) (s : string) : bool :=
  match s with
  | EmptyString => true
  | String c s' => p c && string_forall p s'
  end.

(** A string that is empty or begins with a character that is not a
    letter: what may follow a run of letters. *)
Definition ends_run (s : string) : bool :=
  match s with
  | EmptyString => true
  | String c _ => negb (is_letter c)
  end.

End Models.

(* ================================================================== *)
(** ** InputFiltering: true and predicted labels *)

(** [Tensor.sort()[0]] of a flat tensor: ascending, NaN last. *)
Fixpoint insert_score (x : pyfloat) (l : list pyfloat) : list pyfloat :=
  match l with
  | [] => [x]
  | y :: l' => if fsort_le x y then x :: l else y :: insert_score x l'
  end.

Definition sort_scores (l : list pyfloat) : list pyfloat :=
  fold_right insert_score [] l.

(** [torch.cat] of a list of flat tensors; an empty list is refused. *)
Definition torch_cat_list (l : list (list pyfloat)) : Res (list pyfloat) :=
  match l with
  | [] => Raise RuntimeError
  | _ => Ok (concat l)
  end.

Module InputFiltering.

(** [get_true_labels]: [defense_input_num] times [False], then the second
    half, from index [len // 2] on, set to [True]. *)
Definition get_true_labels (defense_input_num : nat) : list bool :=
  let y_true := repeat false defense_input_num in
  let half := length y_true / 2 in
  firstn half y_true ++ map (fun _ => true) (skipn half y_true).

Section PredLabels.

(** A batch of the validation loader is of type [Data]; an input is of
    type [X].  [remove_misclassify] keeps the inputs of a batch that the
    model classifies correctly, with their labels; [add_mark] stamps the
    mark on a batch of inputs; [check] is the abstract scoring method of
    the defense. *)
Variables X Data : Type.
Variable remove_misclassify : Data -> list (X * nat).
Variable add_mark : list X -> list X.
Variable check : list X -> bool -> list pyfloat.

(** [for data in loader: ...] of [get_pred_labels], with its [break] and
    [continue]; the state is [remain_counter] and the two lists of score
    tensors. *)
Fixpoint pred_loop (loader : list Data) (remain_counter : nat)
  (clean_scores poison_scores : list (list pyfloat))
  : list (list pyfloat) * list (list pyfloat) :=
  match loader with
  | [] => (clean_scores, poison_scores)
  | data :: rest =>
      if remain_counter =? 0 then (clean_scores, poison_scores)
      else
        let batch := remove_misclassify data in
        let _input := map fst batch in
        let _label := map snd batch in
        if length _label =? 0
        then pred_loop rest remain_counter clean_scores poison_scores
        else
          let (remain_counter', _input') :=
            if length _input <? remain_counter
            then (remain_counter - length _input, _input)
            else (remain_counter, firstn remain_counter _input) in
          let poison_input := add_mark _input' in
          pred_loop rest remain_counter'
            (clean_scores ++ [check _input' false])
            (poison_scores ++ [check poison_input true])
  end.

(** [InputFiltering.get_pred_labels], with the default [score2label]. *)
Definition get_pred_labels (defense_input_num : nat) (loader : list Data)
  : Res (list bool) :=
  let (clean_scores, poison_scores) :=
    pred_loop loader defense_input_num [] [] in
  match torch_cat_list clean_scores with
  | Raise e => Raise e
  | Ok clean =>
      match torch_cat_list poison_scores with
      | Raise e => Raise e
      | Ok poison =>
          Ok (score2label (sort_scores clean) (sort_scores poison))
      end
  end.

(** The correctly classified inputs the loader supplies, and its batches
    that have one. *)
Definition supplied (loader : list Data) : nat :=
  length (concat (map remove_misclassify loader)).

Definition nonempty_batches (loader : list Data) : nat :=
  length (filter (fun d => negb (length (remove_misclassify d) =? 0)) loader).

End PredLabels.

End InputFiltering.

(* ================================================================== *)
(** ** TrainingFiltering: the mixed dataset and its true labels *)

Module TrainingFiltering.

(** [int(x)] of a float: truncation towards zero. *)
Definition to_int (x : pyfloat) : Result Z :=
  match x with
  | Fin q => Return (Z.quot (Qnum q) (Zpos (Qden q)))
  | NaN => Throw ValueError
  | PInf | NInf => Throw OverflowError
  end.

Definition of_Z (n : Z) : pyfloat := Fin (inject_Z n).

(** [get_true_labels]: [False] for every clean sample, then [True] for
    every poisoned one. *)
Definition get_true_labels (len_clean len_poison : nat) : list bool :=
  repeat false len_clean ++ repeat true len_poison.

Section MixDataset.

(** A sample is of type [X]; [G] is the state of the random generator. *)
Variables X G : Type.

(** A dataset: its inputs and their labels; its length is the number of
    inputs. *)
Record dataset : Type := {
  data : list X;
  targets : list nat
}.

Definition len (d : dataset) : nat := length (data d).

(** [trojanzoo.utils.data.sample_batch(dataset, batch_size=k)], which is
    not among the sources: some inputs and labels of the dataset. *)
Variable sample_batch :
  G -> dataset -> Z -> Result ((list X * list nat) * G).

Record TrainingFiltering : Type := {
  defense_input_num : option Z;
  train_mode : string;
  poison_percent : pyfloat
}.

(** [torch.stack] of a list of inputs. *)
Definition stack_inputs (l : list X) : Result (list X) :=
  match l with
  | [] => Throw (Builtin RuntimeError)
  | _ => Return l
  end.

(** [TrainingFiltering.get_mix_dataset]; [train_set] is the training
    dataset of the loader and [poison_set] is [attack.poison_dataset]. *)
Definition get_mix_dataset (self : TrainingFiltering)
  (train_set poison_set : dataset) (g : G)
  : Result ((dataset * dataset) * G) :=
  match defense_input_num self with
  | None => Return ((train_set, poison_set), g)
  | Some 0%Z => Return ((train_set, poison_set), g)
  | Some n =>
      if String.eqb (train_mode self) "dataset"
      then Throw (UnboundLocalError "clean_dataset")
      else
        match to_int (fmul (of_Z n) (poison_percent self)) with
        | Throw e => Throw e
        | Return poison_num =>
            let clean_num := (n - poison_num)%Z in
            match sample_batch g train_set clean_num with
            | Throw e => Throw e
            | Return ((clean_input, clean_label), g1) =>
                match sample_batch g1 poison_set poison_num with
                | Throw e => Throw e
                | Return ((poison_input, poison_label), g2) =>
                    match stack_inputs clean_input with
                    | Throw e => Throw e
                    | Return ci =>
                        match stack_inputs poison_input with
                        | Throw e => Throw e
                        | Return pi =>
                            Return
                              (({| data := ci; targets := clean_label |},
                                {| data := pi; targets := poison_label |}),
                               g2)
                        end
                    end
                end
            end
        end
  end.

(** [sample_batch] returns as many inputs as it is asked for, when that
    number is not negative. *)
Definition samples_batch_size : Prop :=
  forall g d k xs ls g',
    (0 <= k)%Z ->
    sample_batch g d k = Return ((xs, ls), g') -> Z.of_nat (length xs) = k.

End MixDataset.

End TrainingFiltering.

(* ================================================================== *)
(** ** Small inputs for the filtering defenses *)

Module Samples.

(** Inputs are numbers; a batch is the list of its correctly classified
    inputs with their labels; the score of an input is the input plus
    one, plus two when it carries the mark. *)
Definition remove_misclassify (d : list (nat * nat)) : list (nat * nat) := d.

Definition add_mark (xs : list nat) : list nat := xs.

Definition check (xs : list nat) (poison : bool) : list pyfloat :=
  map (fun x => if poison then of_nat (S (S x)) else of_nat (S x)) xs.

(** Three batches of two inputs and one without any. *)
Definition loader : list (list (nat * nat)) :=
  [ [(1, 0); (2, 1)]; []; [(3, 0); (4, 1)]; [(5, 1); (6, 0)] ].

(** Sampling takes the first [k] samples of a dataset, and fails when
    there are fewer. *)
Definition sample_batch (g : unit) (d : TrainingFiltering.dataset nat)
  (k : Z) : Result ((list nat * list nat) * unit) :=
  if (0 <=? k)%Z && (Z.to_nat k <=? TrainingFiltering.len d)
  then Return ((firstn (Z.to_nat k) (TrainingFiltering.data d),
                firstn (Z.to_nat k) (TrainingFiltering.targets d)), g)
  else Throw ValueError.

Definition train_set : TrainingFiltering.dataset nat :=
  {| TrainingFiltering.data := [1; 2; 3; 4; 5; 6; 7; 8];
     TrainingFiltering.targets := [0; 1; 0; 1; 0; 1; 0; 1] |}.

Definition poison_set : TrainingFiltering.dataset nat :=
  {| TrainingFiltering.data := [11; 12; 13; 14];
     TrainingFiltering.targets := [0; 0; 0; 0] |}.

Definition filtering : TrainingFiltering.TrainingFiltering :=
  {| TrainingFiltering.defense_input_num := Some 4%Z;
     TrainingFiltering.train_mode := "batch";
     TrainingFiltering.poison_percent := Fin (1 # 4)%Q |}.

End Samples.

(* ================================================================== *)
(** ** ModelInspection.detect, after the sweep *)

(** [l[i]] on a list, or along the first dimension of a tensor, for an
    index that is not negative. *)
Definition getitem {A : Type} (l : list A) (i : nat) : Res A :=
  match nth_error l i with
  | Some a => Ok a
  | None => Raise IndexError
  end.

(** [mark_list[:, -1].flatten(start_dim=1).norm(p=1, dim=1)]: the L1 norm
    of the last channel of every mark of the stack. *)
Fixpoint mask_norms_of (mark_list : list tensor) : Res (list pyfloat) :=
  match mark_list with
  | [] => Ok []
  | m :: rest =>
      match getitem_last m with
      | Raise e => Raise e
      | Ok ch =>
          match mask_norms_of rest with
          | Raise e => Raise e
          | Ok norms => Ok (norm_p1 ch :: norms)
          end
      end
  end.

Section Detect.

Context {B : Backend}.
Variable self : ModelInspection.

(** [ModelInspection.detect], after [super().detect()].
    [mark_random_pos] is the flag of the attack's mark, read before the
    mark is replaced, and [target_class] is [attack.target_class].  The
    result is what is printed: the mask norms and the losses (the
    normalised deviations and the Jaccard index, which are printed as
    well, are not modelled). *)
Definition detect (mark_random_pos : bool) (target_class : nat)
  (data_height data_width : nat) : M (list pyfloat * list pyfloat) :=
  r <- detect_sweep self data_height data_width ;;
  mask_norms <- lift (mask_norms_of (fst r)) ;;
  (if negb mark_random_pos
   then mk <- lift (getitem (fst r) target_class) ;; set_mark (Some mk)
   else ret tt) ;;;
  ret (mask_norms, snd r).

(** The averages of the meters that [check_early_stop] is called with. *)
Definition stops (m : meters) : bool :=
  check_early_stop self (AverageMeter.avg (losses m))
    (AverageMeter.avg (acc m)) (AverageMeter.avg (norm m))
    (AverageMeter.avg (entropy m)).

End Detect.

(* ================================================================== *)
(** ** TrojanNN: the neuron value *)

(** [row[idx]] for a tensor [idx] of indices that are not negative. *)
Fixpoint take_indices {A : Type} (row : list A) (idx : list nat)
  : Res (list A) :=
  match idx with
  | [] => Ok []
  | i :: idx' =>
      match nth_error row i with
      | None => Raise IndexError
      | Some a =>
          match take_indices row idx' with
          | Raise e => Raise e
          | Ok l => Ok (a :: l)
          end
      end
  end.

Fixpoint select_rows {A : Type} (rows : list (list A)) (idx : list nat)
  : Res (list (list A)) :=
  match rows with
  | [] => Ok []
  | row :: rest =>
      match take_indices row idx with
      | Raise e => Raise e
      | Ok r =>
          match select_rows rest idx with
          | Raise e => Raise e
          | Ok rs => Ok (r :: rs)
          end
      end
  end.

(** [t[:, idx]]: for every sample, the neurons of index in [idx]. *)
Definition nd_select (t : ndtensor) (idx : list nat) : Res ndtensor :=
  match t with
  | Dim2 m =>
      match select_rows m idx with
      | Raise e => Raise e
      | Ok m' => Ok (Dim2 m')
      end
  | DimN t =>
      match select_rows t idx with
      | Raise e => Raise e
      | Ok t' => Ok (DimN t')
      end
  end.

Section NeuronValue.

Context {B : Backend}.

(** [TrojanNN.get_neuron_value]; [get_layer] is the output of
    [preprocess_layer]. *)
Definition get_neuron_value (trigger_input : Inp) (neuron_idx : list nat)
  : Res pyfloat :=
  match nd_select (get_layer trigger_input) neuron_idx with
  | Raise e => Raise e
  | Ok trigger_feats =>
      Ok (fmean (concat (mean_trailing (nd_abs trigger_feats))))
  end.

End NeuronValue.

(** A layer output for at least one sample, with [n] neurons per sample. *)
Definition has_neurons (n : nat) (t : ndtensor) : Prop :=
  match t with
  | Dim2 m => m <> [] /\ Forall (fun row => length row = n) m
  | DimN t => t <> [] /\ Forall (fun sample => length sample = n) t
  end.

(** A float that is not negative, or not a number. *)
Definition nonneg_or_nan (x : pyfloat) : Prop :=
  x = NaN \/ fle f0 x = true.

(* ================================================================== *)
(** ** A defense that stops early *)

Module ToyStop.

(** A hook that stops once the average norm of an epoch is below three
    halves. *)
Definition norm_below (loss acc norm entropy : pyfloat) : bool :=
  flt norm (Fin (3 # 2)%Q).

Definition inspection (n k : nat) : ModelInspection := {|
  defense_remask_epoch := n;
  cost := Fin (1 # 1000)%Q;
  num_classes := k;
  check_early_stop := norm_below
|}.

End ToyStop.

(* ================================================================== *)
(** * Properties *)

(** ** Comparisons of floats *)

Lemma Qle_bool_total (a b : Q) : Qle_bool a b = false -> Qle_bool b a = true.
Proof.
  intro H. apply Qle_bool_iff. apply Qlt_le_weak. apply Qnot_le_lt.
  intro Hle. apply Qle_bool_iff in Hle. congruence.
Qed.

Lemma Qle_bool_trans (a b c : Q) :
  Qle_bool a b = true -> Qle_bool b c = true -> Qle_bool a c = true.
Proof.
  rewrite !Qle_bool_iff. apply Qle_trans.
Qed.

Lemma flt_fle (x y : pyfloat) : flt x y = true -> fle x y = true.
Proof.
  destruct x as [a| | |], y as [b| | |]; simpl; try congruence.
  unfold Qlt_b. intro H. apply Qle_bool_total.
  now destruct (Qle_bool b a).
Qed.

Lemma flt_not_nan (x y : pyfloat) : flt x y = true -> is_nan x = false.
Proof.
  destruct x, y; simpl; congruence.
Qed.

Lemma fle_refl (x : pyfloat) : is_nan x = false -> fle x x = true.
Proof.
  destruct x as [a| | |]; simpl; try congruence.
  intros _. apply Qle_bool_iff. apply Qle_refl.
Qed.

Lemma fle_trans (x y z : pyfloat) :
  fle x y = true -> fle y z = true -> fle x z = true.
Proof.
  destruct x as [a| | |], y as [b| | |], z as [c| | |]; simpl;
    try congruence.
  apply Qle_bool_trans.
Qed.

Lemma flt_irrefl (x : pyfloat) : flt x x = false.
Proof.
  destruct x as [a| | |]; simpl; try reflexivity.
  unfold Qlt_b.
  assert (H : Qle_bool a a = true) by (apply Qle_bool_iff, Qle_refl).
  now rewrite H.
Qed.

Lemma Qlt_b_lt (a b : Q) : Qlt_b a b = true -> (a < b)%Q.
Proof.
  unfold Qlt_b. intro H. apply negb_true_iff in H.
  apply Qnot_le_lt. intro Hle. apply Qle_bool_iff in Hle. congruence.
Qed.

Lemma flt_trans (x y z : pyfloat) :
  flt x y = true -> flt y z = true -> flt x z = true.
Proof.
  destruct x as [a| | |], y as [b| | |], z as [c| | |]; simpl;
    try congruence.
  intros Hab Hbc. apply Qlt_b_lt in Hab, Hbc.
  unfold Qlt_b. apply negb_true_iff.
  destruct (Qle_bool c a) eqn:Hca; [|reflexivity].
  apply Qle_bool_iff in Hca. exfalso. apply (Qlt_irrefl a).
  eapply Qlt_le_trans; [eapply Qlt_trans; eassumption | exact Hca].
Qed.

Lemma fle_nan_nan : fle NaN NaN = false.
Proof. reflexivity. Qed.

Lemma flt_pinf_false (x : pyfloat) :
  flt x PInf = false -> x = PInf \/ x = NaN.
Proof.
  destruct x; simpl; auto; discriminate.
Qed.

Lemma fsort_le_total (x y : pyfloat) :
  fsort_le x y = false -> fsort_le y x = true.
Proof.
  destruct x as [a| | |], y as [b| | |]; simpl; try congruence.
  apply Qle_bool_total.
Qed.

Lemma fsort_le_trans (x y z : pyfloat) :
  fsort_le x y = true -> fsort_le y z = true -> fsort_le x z = true.
Proof.
  destruct x as [a| | |], y as [b| | |], z as [c| | |]; simpl;
    try congruence.
  apply Qle_bool_trans.
Qed.

(* ------------------------------------------------------------------ *)
(** ** TrojanNN construction *)

(** The two messages differ, so the exception tells which check failed. *)
Lemma msg_random_init_neq_pos : msg_random_init <> msg_random_pos.
Proof.
  apply String.eqb_neq. reflexivity.
Qed.

(** C8.  When the placement is random ([mark_random_pos] is [True]) the
    constructor raises: the placement error when the mark is randomly
    initialised, the initialisation error (raised first) when it is not.
    When the placement is fixed the placement check passes: the
    constructor returns the object if the mark is randomly initialised,
    and otherwise raises the initialisation error, never the placement
    error.  The constructor is a function of the flags and its arguments
    only; it runs no optimisation. *)
Theorem TrojanNN_init_random_pos :
  forall (init : bool) (pl pnl : string) (tv : pyfloat) (nn : nat)
         (lr : pyfloat) (ne : nat),
    TrojanNN_init {| mark_random_init := init; mark_random_pos := true |}
      pl pnl tv nn lr ne
    = Raise (Exception (if init then msg_random_pos else msg_random_init))
    /\ TrojanNN_init {| mark_random_init := init; mark_random_pos := false |}
         pl pnl tv nn lr ne
       = (if init
          then Ok {| preprocess_layer := pl; preprocess_next_layer := pnl;
                     target_value := tv; neuron_num := nn; neuron_lr := lr;
                     neuron_epoch := ne; neuron_idx := None |}
          else Raise (Exception msg_random_init))
    /\ TrojanNN_init {| mark_random_init := init; mark_random_pos := false |}
         pl pnl tv nn lr ne
       <> Raise (Exception msg_random_pos).
Proof.
  intros init pl pnl tv nn lr ne. unfold TrojanNN_init; simpl.
  destruct init; simpl; repeat split; try reflexivity; try discriminate.
  all: intro H; injection H as H; now apply msg_random_init_neq_pos.
Qed.

(** C10.  When the mark is not randomly initialised ([mark_random_init] is
    [False]) the constructor raises the initialisation error, whatever the
    placement; and a [TrojanNN] is constructed exactly when the mark is
    randomly initialised and its placement is fixed. *)
Theorem TrojanNN_init_random_init :
  forall (wm : Watermark) (pl pnl : string) (tv : pyfloat) (nn : nat)
         (lr : pyfloat) (ne : nat),
    TrojanNN_init {| mark_random_init := false;
                     mark_random_pos := mark_random_pos wm |}
      pl pnl tv nn lr ne
    = Raise (Exception msg_random_init)
    /\ ((exists obj, TrojanNN_init wm pl pnl tv nn lr ne = Ok obj)
        <-> (mark_random_init wm = true /\ mark_random_pos wm = false)).
Proof.
  intros [init pos] pl pnl tv nn lr ne. unfold TrojanNN_init; simpl.
  split; [reflexivity|].
  destruct init, pos; simpl; split.
  all: try (intros [obj H]; discriminate).
  all: try (intros [H1 H2]; discriminate).
  - intros _. now split.
  - intros _. eexists. reflexivity.
Qed.

(* ------------------------------------------------------------------ *)
(** ** The bounded reparameterisation stays in the unit interval *)

Lemma tanh_bounds (x : R) : (-1 < Rtrigo_def.tanh x < 1)%R.
Proof.
  unfold Rtrigo_def.tanh, sinh, cosh.
  pose proof (exp_pos x) as Ha. pose proof (exp_pos (- x)) as Hb.
  set (a := exp x) in *. set (b := exp (- x)) in *.
  assert (Hab : (0 < a + b)%R) by lra.
  assert (Hq1 : (0 < 2 * b / (a + b))%R).
  { apply Rdiv_lt_0_compat; lra. }
  assert (Hq2 : (0 < 2 * a / (a + b))%R).
  { apply Rdiv_lt_0_compat; lra. }
  split.
  - replace ((a - b) / 2 / ((a + b) / 2))%R
      with (-1 + 2 * a / (a + b))%R by (field; lra).
    lra.
  - replace ((a - b) / 2 / ((a + b) / 2))%R
      with (1 - 2 * b / (a + b))%R by (field; lra).
    lra.
Qed.

(** C4.  For every real [x], [tanh_func x] lies in the closed interval
    [[0, 1]], however large [x] is. *)
Theorem tanh_func_unit_interval :
  forall x : R, (0 <= tanh_func_R x <= 1)%R.
Proof.
  intro x. unfold tanh_func_R, tanh_func_on.
  pose proof (tanh_bounds x) as [Hlo Hhi]. lra.
Qed.

(* ------------------------------------------------------------------ *)
(** ** score2label *)

Lemma count_true_filter (f : pyfloat -> bool) (l : list pyfloat) :
  count_occ bool_dec (map f l) true = length (filter f l).
Proof.
  induction l as [|x l IH]; simpl; [reflexivity|].
  destruct (f x); simpl.
  - destruct (bool_dec true true); [now rewrite IH | congruence].
  - destruct (bool_dec false true); [discriminate | exact IH].
Qed.

Lemma count_false_filter (f : pyfloat -> bool) (l : list pyfloat) :
  count_occ bool_dec (map f l) false
  = length (filter (fun x => negb (f x)) l).
Proof.
  induction l as [|x l IH]; simpl; [reflexivity|].
  destruct (f x); simpl.
  - destruct (bool_dec true false); [discriminate | exact IH].
  - destruct (bool_dec false false); [now rewrite IH | congruence].
Qed.

(** C3, as the code has it.  On two score tensors of size [n] each,
    [score2label] returns a vector of length [2 n] with the clean entries
    first; an entry is [True] exactly when its score is not zero, so the
    number of [True] entries is the number of non-zero scores and the
    number of [False] entries the number of zero scores. *)
Theorem score2label_nonzero :
  forall (n : nat) (clean_scores poison_scores : list pyfloat),
    length clean_scores = n ->
    length poison_scores = n ->
    length (score2label clean_scores poison_scores) = 2 * n
    /\ score2label clean_scores poison_scores
       = map fnonzero clean_scores ++ map fnonzero poison_scores
    /\ count_occ bool_dec (score2label clean_scores poison_scores) true
       = length (filter fnonzero (clean_scores ++ poison_scores))
    /\ count_occ bool_dec (score2label clean_scores poison_scores) false
       = length (filter (fun x => negb (fnonzero x))
                   (clean_scores ++ poison_scores)).
Proof.
  intros n c p Hc Hp. unfold score2label, to_bool, torch_cat.
  repeat split.
  - rewrite length_map, length_app. lia.
  - apply map_app.
  - apply count_true_filter.
  - apply count_false_filter.
Qed.

Lemma score2label_nonzero_witness :
  length (score2label [Fin 0%Q; Fin 1%Q] [Fin 2%Q; Fin 3%Q]) = 2 * 2
  /\ count_occ bool_dec (score2label [Fin 0%Q; Fin 1%Q] [Fin 2%Q; Fin 3%Q])
       true = 3.
Proof.
  destruct (@score2label_nonzero 2 [Fin 0%Q; Fin 1%Q] [Fin 2%Q; Fin 3%Q]
              eq_refl eq_refl) as (Hlen & _ & Htrue & _).
  split; [exact Hlen | rewrite Htrue; reflexivity].
Defined.

(** C3, as stated, fails: two sorted, disjoint score tensors of size one,
    none of whose scores is zero, are labelled [True] twice. *)
Lemma score2label_not_balanced :
  let clean_scores := [Fin 1%Q] in
  let poison_scores := [Fin 2%Q] in
  length clean_scores = 1 /\ length poison_scores = 1
  /\ sorted_scores clean_scores /\ sorted_scores poison_scores
  /\ disjoint_scores clean_scores poison_scores
  /\ score2label clean_scores poison_scores = [true; true]
  /\ count_occ bool_dec (score2label clean_scores poison_scores) true <> 1
  /\ count_occ bool_dec (score2label clean_scores poison_scores) false <> 1.
Proof.
  simpl. repeat split; try discriminate.
  - repeat constructor.
  - repeat constructor.
  - intros x y [Hx|[]] [Hy|[]]. subst. discriminate.
Qed.

(* ------------------------------------------------------------------ *)
(** ** Neuron selection *)

Lemma In_firstn {A : Type} (k : nat) (l : list A) (x : A) :
  In x (firstn k l) -> In x l.
Proof.
  intro H. rewrite <- (firstn_skipn k l). apply in_or_app. now left.
Qed.

Section Argsort.

Variable key : nat -> pyfloat.

Let key_le (i j : nat) : Prop := fsort_le (key i) (key j) = true.

Lemma insert_idx_perm (i : nat) (l : list nat) :
  Permutation (i :: l) (insert_idx key i l).
Proof.
  induction l as [|j l IH]; simpl; [reflexivity|].
  destruct (fsort_le (key i) (key j)); [reflexivity|].
  rewrite perm_swap. now constructor.
Qed.

Lemma insert_idx_sorted (i : nat) (l : list nat) :
  StronglySorted key_le l -> StronglySorted key_le (insert_idx key i l).
Proof.
  induction 1 as [|j l Hs IH Hj]; simpl.
  - repeat constructor.
  - destruct (fsort_le (key i) (key j)) eqn:Hij.
    + constructor; [now constructor|].
      constructor; [exact Hij|].
      rewrite Forall_forall in *. intros k Hk.
      unfold key_le. eapply fsort_le_trans; [exact Hij | now apply Hj].
    + constructor; [exact IH|].
      rewrite Forall_forall in *. intros k Hk.
      apply (Permutation_in _ (Permutation_sym (insert_idx_perm i l))) in Hk.
      destruct Hk as [<-|Hk]; [now apply fsort_le_total | now apply Hj].
Qed.

Lemma fold_insert_perm (l : list nat) :
  Permutation l (fold_right (insert_idx key) [] l).
Proof.
  induction l as [|i l IH]; simpl; [reflexivity|].
  rewrite <- insert_idx_perm. now constructor.
Qed.

Lemma fold_insert_sorted (l : list nat) :
  StronglySorted key_le (fold_right (insert_idx key) [] l).
Proof.
  induction l as [|i l IH]; simpl; [constructor|].
  now apply insert_idx_sorted.
Qed.

Lemma sorted_firstn (k : nat) (l : list nat) :
  StronglySorted key_le l -> StronglySorted key_le (firstn k l).
Proof.
  intro H. revert k.
  induction H as [|j l Hs IH Hj]; intros [|k]; simpl; try constructor.
  - apply IH.
  - rewrite Forall_forall in *. intros x Hx. apply Hj.
    now apply In_firstn in Hx.
Qed.

Lemma sorted_firstn_skipn (k : nat) (l : list nat) :
  StronglySorted key_le l ->
  forall x y, In x (firstn k l) -> In y (skipn k l) -> key_le x y.
Proof.
  intro H. revert k.
  induction H as [|j l Hs IH Hj]; intros [|k] x y Hx Hy; simpl in *;
    try contradiction.
  destruct Hx as [<-|Hx].
  - rewrite Forall_forall in Hj. apply Hj.
    rewrite <- (firstn_skipn k l). apply in_or_app. now right.
  - now apply (IH k).
Qed.

End Argsort.

Lemma argsort_perm (v : list pyfloat) :
  Permutation (seq 0 (length v)) (argsort v).
Proof. apply fold_insert_perm. Qed.

(** For a two-dimensional weight, the score of neuron [j] is the mean over
    the rows (the units of the next layer) of the absolute weight in
    column [j]. *)
Lemma neuron_weight_Dim2 (m : list (list pyfloat)) (j : nat) :
  j < length (hd [] m) ->
  nth j (neuron_weight (Dim2 m)) NaN
  = fmean (map (fun row => fabs (nth j row NaN)) m).
Proof.
  intro Hj. unfold neuron_weight, mean0; simpl.
  assert (Hlen : length (hd [] (map (map fabs) m)) = length (hd [] m)).
  { destruct m; simpl; [reflexivity | apply length_map]. }
  rewrite Hlen.
  rewrite (nth_indep _ NaN (fmean (map (fun row => nth 0 row NaN)
                                    (map (map fabs) m))))
    by (rewrite length_map, length_seq; exact Hj).
  rewrite (map_nth (fun j => fmean (map (fun row => nth j row NaN)
                                     (map (map fabs) m))) (seq 0 _) 0 j).
  rewrite seq_nth by exact Hj. simpl.
  f_equal. rewrite map_map. apply map_ext. intro row.
  change NaN with (fabs NaN) at 1. apply map_nth.
Qed.

(** C2, as the code has it.  [get_neuron_idx] returns [neuron_num] indices
    (all of them when the layer has fewer neurons), without repetition, of
    the neurons with the smallest mean absolute weight in the next layer:
    every returned neuron ranks no higher than every neuron left out, and
    the result is in ascending order of that weight.  No activation and no
    dataset enters the selection. *)
Theorem get_neuron_idx_least_weight :
  forall (self : TrojanNN) (weight : ndtensor),
    let v := neuron_weight weight in
    let idx := get_neuron_idx self weight in
    let weight_le i j := fsort_le (nth i v NaN) (nth j v NaN) = true in
    length idx = Nat.min (neuron_num self) (length v)
    /\ NoDup idx
    /\ (forall i, In i idx -> i < length v)
    /\ (forall i j, In i idx -> j < length v -> ~ In j idx -> weight_le i j)
    /\ StronglySorted weight_le idx.
Proof.
  intros self weight v idx weight_le. unfold idx, get_neuron_idx. fold v.
  pose proof (argsort_perm v) as Hperm.
  assert (Hsorted : StronglySorted weight_le (argsort v))
    by apply fold_insert_sorted.
  assert (Hnodup : NoDup (argsort v)).
  { eapply Permutation_NoDup; [exact Hperm | apply seq_NoDup]. }
  repeat split.
  - rewrite length_firstn, <- (Permutation_length Hperm), length_seq.
    reflexivity.
  - rewrite <- (firstn_skipn (neuron_num self) (argsort v)) in Hnodup.
    now apply NoDup_app_remove_r in Hnodup.
  - intros i Hi. apply In_firstn in Hi.
    apply (Permutation_in _ (Permutation_sym Hperm)) in Hi.
    apply in_seq in Hi. lia.
  - intros i j Hi Hj Hnj.
    apply (sorted_firstn_skipn (fun i => nth i v NaN) (neuron_num self)
             Hsorted); [exact Hi|].
    assert (Hin : In j (argsort v)).
    { apply (Permutation_in _ Hperm). apply in_seq. lia. }
    rewrite <- (firstn_skipn (neuron_num self) (argsort v)) in Hin.
    apply in_app_or in Hin. destruct Hin as [Hin|Hin]; [contradiction|].
    exact Hin.
  - now apply sorted_firstn.
Qed.

(** C2, as stated, fails: with one neuron to select, a next-layer weight
    that is smallest for neuron 0 and activations that are smallest for
    neuron 1, the code selects neuron 0 and the least-activated neuron is
    neuron 1. *)
Lemma get_neuron_idx_not_least_activated :
  get_neuron_idx Toy.attack Toy.weight = [0]
  /\ least_activated_spec (neuron_num Toy.attack) Toy.activations = [1]
  /\ get_neuron_idx Toy.attack Toy.weight
     <> least_activated_spec (neuron_num Toy.attack) Toy.activations.
Proof.
  repeat split; try reflexivity. vm_compute. discriminate.
Qed.

(* ------------------------------------------------------------------ *)
(** ** Shapes *)

Lemma shape_of_tmap (f : pyfloat -> pyfloat) (t : tensor) :
  shape_of (tmap f t) = shape_of t.
Proof.
  unfold shape_of, tmap. rewrite map_map. apply map_ext. intro ch.
  rewrite map_map. apply map_ext. intro row. apply length_map.
Qed.

Lemma shape_of_zeros (c h w : nat) : has_shape c h w (zeros c h w).
Proof.
  unfold has_shape, shape_of, zeros, shape3.
  rewrite map_repeat. f_equal. rewrite map_repeat. f_equal.
  apply repeat_length.
Qed.

Lemma shape_of_length (t : tensor) : length (shape_of t) = length t.
Proof. apply length_map. Qed.

Lemma shape_of_nil (t : tensor) : shape_of t = [] -> t = [].
Proof. destruct t; [reflexivity | discriminate]. Qed.

Lemma getitem_last_app (t : tensor) (ch : channel) :
  getitem_last (t ++ [ch]) = Ok ch.
Proof. unfold getitem_last. now rewrite rev_unit. Qed.

Lemma getitem_last_ok (t : tensor) :
  t <> [] -> exists ch, getitem_last t = Ok ch.
Proof.
  intro H. destruct (exists_last H) as (t' & ch & ->).
  exists ch. apply getitem_last_app.
Qed.

Section ShapeLemmas.

Context {B : Backend}.

Lemma shape_of_tanh_func (t : tensor) : shape_of (tanh_func t) = shape_of t.
Proof. apply shape_of_tmap. Qed.

Lemma randn_row_length (r : list pyfloat) (g : Rng) :
  length (fst (randn_row r g)) = length r.
Proof.
  revert g. induction r as [|x r IH]; intro g; simpl; [reflexivity|].
  destruct (randn g) as [y g1]. specialize (IH g1).
  destruct (randn_row r g1) as [ys g2]. simpl in *. now rewrite IH.
Qed.

Lemma randn_channel_shape (ch : channel) (g : Rng) :
  map (fun row => length row) (fst (randn_channel ch g))
  = map (fun row => length row) ch.
Proof.
  revert g. induction ch as [|r ch IH]; intro g; simpl; [reflexivity|].
  pose proof (randn_row_length r g) as Hr.
  destruct (randn_row r g) as [y g1]. specialize (IH g1).
  destruct (randn_channel ch g1) as [ys g2]. simpl in *. now rewrite Hr, IH.
Qed.

Lemma randn_like_shape (t : tensor) (g : Rng) :
  shape_of (fst (randn_like t g)) = shape_of t.
Proof.
  revert g. induction t as [|ch t IH]; intro g; simpl; [reflexivity|].
  pose proof (randn_channel_shape ch g) as Hc.
  destruct (randn_channel ch g) as [y g1]. specialize (IH g1).
  destruct (randn_like t g1) as [ys g2]. simpl in *. now rewrite Hc, IH.
Qed.

End ShapeLemmas.

(* ------------------------------------------------------------------ *)
(** ** The inner loop of optimize_mark *)

Section InnerLoop.

Context {B : Backend}.
Variable self : ModelInspection.

(** What a completed inner iteration did: it read the mark, added the
    loss of the batch at that mark to the meter, and made one step of the
    optimiser on the loss of the batch as a function of the parameter. *)
Lemma batch_step_inv (label : nat) (st st' : mark_loop)
  (data : Inp * list nat) (w w' : World) :
  batch_step self label st data w = Ok (st', w') ->
  exists mk ch,
    mark w = Some mk /\ getitem_last mk = Ok ch
    /\ atanh_mark st'
       = fst (backward_step (optimizer st)
                (fun a => batch_loss_of self label (fst data) (snd data)
                            (tanh_func a))
                (atanh_mark st))
    /\ bst st' = bst st
    /\ mark w' = Some (tanh_func (atanh_mark st'))
    /\ gen w' = gen w
    /\ (atanh_mark st', optimizer st')
       = descent_step self label (atanh_mark st, optimizer st) data
    /\ losses (ms st')
       = AverageMeter.update (losses (ms st))
           (fadd (criterion (model (add_mark mk (fst data)))
                    (map (fun _ => label) (snd data)))
                 (fmul (cost self) (norm_p1 ch)))
           (length (snd data)).
Proof.
  destruct data as [i l]. unfold batch_step, bind, get_mark, lift. simpl.
  destruct (mark w) as [mk|] eqn:Hmk; [|discriminate].
  destruct (getitem_last mk) as [ch|e] eqn:Hch; [|discriminate].
  destruct (backward_step _ _ _) as [a' o'] eqn:Hstep.
  unfold set_mark, ret. simpl. intro H. injection H as <- <-.
  exists mk, ch. simpl. unfold descent_step. simpl.
  repeat split; auto.
Qed.

(** An inner iteration completes when the mark has a last channel. *)
Lemma batch_step_total (label : nat) (st : mark_loop)
  (data : Inp * list nat) (w : World) (mk : tensor) :
  mark w = Some mk -> mk <> [] ->
  exists st' w', batch_step self label st data w = Ok (st', w').
Proof.
  intros Hmk Hne. destruct (getitem_last_ok Hne) as [ch Hch].
  destruct data as [i l]. unfold batch_step, bind, get_mark, lift. simpl.
  rewrite Hmk, Hch.
  destruct (backward_step _ _ _) as [a' o'].
  unfold set_mark, ret. simpl. eauto.
Qed.

(** The inner loop makes one step of the optimiser per batch, in the order
    of the loader, and draws no random number. *)
Lemma batch_loop_descent (label : nat) (loader : list (Inp * list nat)) :
  forall (st st' : mark_loop) (w w' : World),
    batch_loop self label loader st w = Ok (st', w') ->
    (atanh_mark st', optimizer st')
    = fold_left (descent_step self label) loader
        (atanh_mark st, optimizer st)
    /\ gen w' = gen w.
Proof.
  induction loader as [|data rest IH]; intros st st' w w' H; simpl in H.
  - unfold ret in H. injection H as <- <-. now split.
  - unfold bind in H.
    destruct (batch_step self label st data w) as [[st1 w1]|e] eqn:Hstep;
      [|discriminate].
    apply batch_step_inv in Hstep.
    destruct Hstep as (mk & ch & _ & _ & _ & _ & _ & Hg & Hd & _).
    destruct (IH _ _ _ _ H) as [Hf Hg']. simpl. rewrite <- Hd.
    split; [exact Hf | congruence].
Qed.

Section WithShape.

Context {SP : ShapePreserving B}.
Variable s : list (list nat).
Hypothesis s_not_nil : s <> [].

Lemma loop_inv_mark (st : mark_loop) (w : World) :
  loop_inv s st w ->
  mark w = Some (tanh_func (atanh_mark st)) /\ tanh_func (atanh_mark st) <> [].
Proof.
  intros [Hs Hm]. split; [exact Hm|].
  intro Hnil. apply s_not_nil. rewrite <- Hs, <- shape_of_tanh_func.
  now rewrite Hnil.
Qed.

Lemma batch_step_ok (label : nat) (st : mark_loop) (data : Inp * list nat)
  (w : World) :
  loop_inv s st w ->
  exists st' w',
    batch_step self label st data w = Ok (st', w')
    /\ loop_inv s st' w' /\ bst st' = bst st.
Proof.
  intro Hinv. destruct (loop_inv_mark Hinv) as [Hm Hne].
  destruct (batch_step_total label st data _ Hm Hne) as (st' & w' & Hstep).
  exists st', w'. split; [exact Hstep|].
  apply batch_step_inv in Hstep.
  destruct Hstep as (mk & ch & _ & _ & Ha & Hb & Hm' & _ & _).
  split; [split; [|exact Hm'] | exact Hb].
  rewrite Ha, backward_step_shape. apply Hinv.
Qed.

Lemma batch_loop_ok (label : nat) (loader : list (Inp * list nat)) :
  forall (st : mark_loop) (w : World),
    loop_inv s st w ->
    exists st' w',
      batch_loop self label loader st w = Ok (st', w')
      /\ loop_inv s st' w' /\ bst st' = bst st.
Proof.
  induction loader as [|data rest IH]; intros st w Hinv; simpl.
  - exists st, w. unfold ret. repeat split; try apply Hinv.
  - destruct (batch_step_ok label data Hinv) as (st1 & w1 & Hstep & Hinv1 & Hb1).
    destruct (IH _ _ Hinv1) as (st' & w' & Hloop & Hinv' & Hb').
    exists st', w'. unfold bind. rewrite Hstep.
    split; [exact Hloop | split; [exact Hinv' | congruence]].
Qed.

(** An epoch completes, keeps the invariant, and leaves as best result
    what [save_best] makes of the mark and the meters at its end. *)
Lemma epoch_body_ok (label : nat) (st : mark_loop) (w : World) :
  loop_inv s st w ->
  exists st' stop w',
    epoch_body self label st w = Ok ((st', stop), w')
    /\ loop_inv s st' w'
    /\ bst st' = save_best (tanh_func (atanh_mark st')) (ms st') (bst st).
Proof.
  intro Hinv. unfold epoch_body, bind, with_gen.
  destruct (train_loader (gen w)) as [loader g] eqn:Hl.
  set (st0 := {| atanh_mark := atanh_mark st; optimizer := optimizer st;
                 ms := reset_meters; bst := bst st |}).
  set (w0 := {| mark := mark w; gen := g |}).
  assert (Hinv0 : loop_inv s st0 w0) by exact Hinv.
  destruct (batch_loop_ok label loader Hinv0) as (st1 & w1 & Hloop & Hinv1 & Hb1).
  rewrite Hloop. unfold get_mark.
  destruct Hinv1 as [Hs1 Hm1]. rewrite Hm1. unfold ret.
  eexists _, _, _. split; [reflexivity|]. simpl.
  split; [split; assumption | now rewrite Hb1].
Qed.

End WithShape.

End InnerLoop.

(* ------------------------------------------------------------------ *)
(** ** Keeping the best result *)

Lemma save_best_cases (mk : tensor) (m : meters) (b : best) :
  save_best mk m b = b \/ save_best mk m b = snapshot mk m.
Proof.
  unfold save_best, snapshot.
  destruct (flt (AverageMeter.avg (norm m)) (norm_best b)); simpl.
  - now right.
  - destruct (mark_best b); [now left | now right].
Qed.

(** With no best result yet, the epoch's mark is taken, whatever its norm:
    the comparison takes it when the norm is below infinity, the guard
    when it is not. *)
Lemma save_best_none (mk : tensor) (m : meters) (b : best) :
  mark_best b = None -> save_best mk m b = snapshot mk m.
Proof.
  intro Hnone. unfold save_best, snapshot.
  destruct (flt (AverageMeter.avg (norm m)) (norm_best b)); simpl.
  - reflexivity.
  - now rewrite Hnone.
Qed.

(** Once a best result is established, it is replaced only by one of
    strictly smaller norm. *)
Lemma save_best_established (mk : tensor) (m : meters) (b : best) :
  established b ->
  established (save_best mk m b)
  /\ fle (norm_best (save_best mk m b)) (norm_best b) = true.
Proof.
  intros [Hsome Hnan]. unfold save_best.
  destruct (flt (AverageMeter.avg (norm m)) (norm_best b)) eqn:Hlt; simpl.
  - split; [split; [discriminate | now apply flt_not_nan in Hlt]|].
    now apply flt_fle.
  - destruct (mark_best b) eqn:Hb; [|congruence].
    split; [split; [congruence | exact Hnan] | now apply fle_refl].
Qed.

Lemma save_best_some (mk : tensor) (m : meters) (b : best) :
  mark_best (save_best mk m b) <> None.
Proof.
  unfold save_best.
  destruct (flt (AverageMeter.avg (norm m)) (norm_best b)); simpl;
    [discriminate|].
  destruct (mark_best b) eqn:Hb; simpl; congruence.
Qed.

(** The norm of the epoch is not below the best norm that [save_best]
    leaves. *)
Lemma save_best_self (mk : tensor) (m : meters) (b : best) :
  flt (AverageMeter.avg (norm m)) (norm_best (save_best mk m b)) = false.
Proof.
  unfold save_best.
  destruct (flt (AverageMeter.avg (norm m)) (norm_best b)) eqn:Hlt; simpl.
  - apply flt_irrefl.
  - destruct (mark_best b); simpl; [exact Hlt | apply flt_irrefl].
Qed.

(** A norm that is not below the best norm is not below the one that
    [save_best] leaves. *)
Lemma save_best_keeps (mk : tensor) (m : meters) (b : best) (x : pyfloat) :
  mark_best b <> None ->
  flt x (norm_best b) = false ->
  flt x (norm_best (save_best mk m b)) = false.
Proof.
  intros Hsome Hx. unfold save_best.
  destruct (flt (AverageMeter.avg (norm m)) (norm_best b)) eqn:Hlt; simpl.
  - destruct (flt x (AverageMeter.avg (norm m))) eqn:Hxa; [|reflexivity].
    rewrite (flt_trans _ _ _ Hxa Hlt) in Hx. discriminate.
  - destruct (mark_best b); [exact Hx | congruence].
Qed.

(* ------------------------------------------------------------------ *)
(** ** The epoch loop *)

Section EpochLoop.

Context {B : Backend}.
Variable self : ModelInspection.

(** An epoch draws the loader and makes one step per batch of it. *)
Lemma epoch_body_descent (label : nat) (st st' : mark_loop) (stop : bool)
  (w w' : World) :
  epoch_body self label st w = Ok ((st', stop), w') ->
  (atanh_mark st', optimizer st')
  = fold_left (descent_step self label) (fst (train_loader (gen w)))
      (atanh_mark st, optimizer st)
  /\ gen w' = snd (train_loader (gen w)).
Proof.
  unfold epoch_body, bind, with_gen.
  destruct (train_loader (gen w)) as [loader g].
  destruct (batch_loop _ _ _ _ _) as [[st1 w1]|e] eqn:Hloop; [|discriminate].
  unfold get_mark. destruct (mark w1); [|discriminate].
  unfold ret. intro H. injection H as <- _ <-. simpl.
  apply batch_loop_descent in Hloop. exact Hloop.
Qed.

(** A loop of [n] epochs runs [k <= n] of them (fewer when the hook
    stops it) and makes one step per batch of these epochs, in order. *)
Lemma epoch_loop_descent (label : nat) (n : nat) :
  forall (st st' : mark_loop) (w w' : World),
    epoch_loop self label n st w = Ok (st', w') ->
    exists k,
      k <= n /\ (1 <= n -> 1 <= k)
      /\ (atanh_mark st', optimizer st')
         = fold_left (descent_step self label) (epoch_batches k (gen w))
             (atanh_mark st, optimizer st).
Proof.
  induction n as [|n IH]; intros st st' w w' H; simpl in H.
  - unfold ret in H. injection H as <- <-. exists 0.
    split; [lia|]. split; [lia | reflexivity].
  - unfold bind in H.
    destruct (epoch_body self label st w) as [[[st1 stop] w1]|e] eqn:Hbody;
      [|discriminate].
    apply epoch_body_descent in Hbody. destruct Hbody as [Hd Hg].
    simpl in H. destruct stop.
    + unfold ret in H. injection H as <- <-. exists 1.
      split; [lia|]. split; [lia|]. simpl.
      destruct (train_loader (gen w)) as [loader g]. simpl in *.
      now rewrite app_nil_r.
    + destruct (IH _ _ _ _ H) as (k & Hk & _ & Hf). exists (S k).
      split; [lia|]. split; [lia|]. simpl.
      destruct (train_loader (gen w)) as [loader g]. simpl in *.
      rewrite fold_left_app, <- Hd, <- Hg. exact Hf.
Qed.

Section WithShape.

Context {SP : ShapePreserving B}.
Variable s : list (list nat).
Hypothesis s_not_nil : s <> [].
Variable label : nat.

(** A loop of [S n] epochs is the first epoch, then, unless it stopped, a
    loop of [n] epochs. *)
Lemma epoch_loop_first (n : nat) (st : mark_loop) (w : World) :
  loop_inv s st w ->
  exists st1 stop w1,
    epoch_body self label st w = Ok ((st1, stop), w1)
    /\ loop_inv s st1 w1
    /\ bst st1 = save_best (tanh_func (atanh_mark st1)) (ms st1) (bst st)
    /\ epoch_loop self label 1 st w = Ok (st1, w1)
    /\ epoch_loop self label (S n) st w
       = if stop then Ok (st1, w1) else epoch_loop self label n st1 w1.
Proof.
  intro Hinv.
  destruct (epoch_body_ok self s_not_nil label Hinv)
    as (st1 & stop & w1 & Hbody & Hinv1 & Hb1).
  exists st1, stop, w1. repeat split; try assumption; try apply Hinv1.
  - simpl. unfold bind. rewrite Hbody. simpl. now destruct stop.
  - simpl. unfold bind. rewrite Hbody. simpl. now destruct stop.
Qed.

(** One more epoch either changes nothing (the loop had stopped) or ends
    by [save_best] on the mark of that epoch. *)
Lemma epoch_loop_succ (n : nat) :
  forall (st : mark_loop) (w : World),
    loop_inv s st w ->
    exists sa wa sb wb,
      epoch_loop self label n st w = Ok (sa, wa)
      /\ epoch_loop self label (S n) st w = Ok (sb, wb)
      /\ ((sb, wb) = (sa, wa)
          \/ exists mk, mark wb = Some mk /\ shape_of mk = s
                        /\ bst sb = save_best mk (ms sb) (bst sa)).
Proof.
  induction n as [|n IH]; intros st w Hinv.
  - destruct (epoch_loop_first 0 Hinv)
      as (st1 & stop & w1 & _ & Hinv1 & Hb1 & H1 & _).
    exists st, w, st1, w1. repeat split; try assumption.
    right. exists (tanh_func (atanh_mark st1)).
    split; [apply Hinv1 | split; [|exact Hb1]].
    rewrite shape_of_tanh_func. apply Hinv1.
  - destruct (epoch_loop_first n Hinv)
      as (st1 & stop & w1 & Hbody & Hinv1 & _ & _ & Hn).
    destruct (epoch_loop_first (S n) Hinv)
      as (st1' & stop' & w1' & Hbody' & _ & _ & _ & HSn).
    rewrite Hbody in Hbody'. injection Hbody' as <- <- <-.
    rewrite Hn, HSn. destruct stop.
    + exists st1, w1, st1, w1. repeat split. now left.
    + apply IH. exact Hinv1.
Qed.

(** From an established best result on, the best norm only decreases. *)
Lemma epoch_loop_best (n : nat) :
  forall (st : mark_loop) (w : World),
    loop_inv s st w ->
    established (bst st) ->
    exists st' w',
      epoch_loop self label n st w = Ok (st', w')
      /\ established (bst st')
      /\ fle (norm_best (bst st')) (norm_best (bst st)) = true.
Proof.
  induction n as [|n IH]; intros st w Hinv Hest.
  - exists st, w. repeat split; try apply Hest.
    apply fle_refl, Hest.
  - destruct (epoch_loop_first n Hinv)
      as (st1 & stop & w1 & _ & Hinv1 & Hb1 & _ & Hn).
    destruct (save_best_established (tanh_func (atanh_mark st1)) (ms st1) Hest)
      as [Hest1 Hle1].
    rewrite <- Hb1 in Hest1, Hle1.
    rewrite Hn. destruct stop.
    + exists st1, w1. repeat split; try apply Hest1. exact Hle1.
    + destruct (IH _ _ Hinv1 Hest1) as (st' & w' & Hloop & Hest' & Hle').
      exists st', w'. repeat split; try apply Hest'; try exact Hloop.
      eapply fle_trans; eassumption.
Qed.

End WithShape.

End EpochLoop.

(* ------------------------------------------------------------------ *)
(** ** optimize_mark *)

Section OptimizeMark.

Context {B : Backend}.
Variable self : ModelInspection.
Variable label : nat.

Lemma optimize_init_ok (w : World) (mk : tensor) :
  mark w = Some mk ->
  exists st0 w0,
    optimize_init w = Ok (st0, w0)
    /\ loop_inv (shape_of mk) st0 w0
    /\ bst st0 = best0
    /\ (atanh_mark st0, optimizer st0) = (fst (randn_like mk (gen w)), Adam)
    /\ gen w0 = snd (randn_like mk (gen w)).
Proof.
  intro Hmk. unfold optimize_init, bind, get_mark, with_gen. rewrite Hmk.
  simpl. pose proof (randn_like_shape mk (gen w)) as Hshape.
  destruct (randn_like mk (gen w)) as [atanh g]. simpl in *.
  unfold set_mark, ret. simpl.
  eexists _, _. split; [reflexivity|]. simpl.
  repeat split. exact Hshape.
Qed.

Lemma optimize_run_eq (n : nat) (w w0 : World) (st0 : mark_loop) :
  optimize_init w = Ok (st0, w0) ->
  optimize_run self label n w = epoch_loop self label n st0 w0.
Proof.
  intro H. unfold optimize_run, bind. now rewrite H.
Qed.

(** [optimize_mark] returns the best mark and entropy of the run of
    [defense_remask_epoch] epochs, and leaves that mark in the attack. *)
Lemma optimize_mark_eq (w w' : World) (st : mark_loop) :
  optimize_run self label (defense_remask_epoch self) w = Ok (st, w') ->
  optimize_mark self label w
  = Ok ((mark_best (bst st), entropy_best (bst st)),
        {| mark := mark_best (bst st); gen := gen w' |}).
Proof.
  intro H. unfold optimize_mark, bind. rewrite H. reflexivity.
Qed.

(** A run of [n] epochs is the random parameter, then one step per batch of
    the epochs run. *)
Lemma optimize_run_descent (n : nat) (w w' : World) (st : mark_loop)
  (mk : tensor) :
  mark w = Some mk ->
  optimize_run self label n w = Ok (st, w') ->
  exists k,
    k <= n /\ (1 <= n -> 1 <= k)
    /\ (atanh_mark st, optimizer st)
       = fold_left (descent_step self label)
           (epoch_batches k (snd (randn_like mk (gen w))))
           (fst (randn_like mk (gen w)), Adam).
Proof.
  intros Hmk Hrun.
  destruct (optimize_init_ok w Hmk) as (st0 & w0 & Hinit & _ & _ & Ha & Hg).
  rewrite (optimize_run_eq n w Hinit) in Hrun.
  apply epoch_loop_descent in Hrun. rewrite Ha, Hg in Hrun. exact Hrun.
Qed.

Section WithShape.

Context {SP : ShapePreserving B}.
Variable s : list (list nat).
Hypothesis s_not_nil : s <> [].

(** From a state with no best result, the first epoch snapshots its mark,
    and if the norm of that epoch is a number the best norm of every
    longer loop is below it. *)
Lemma epoch_loop_from_start (n : nat) (st : mark_loop) (w : World) :
  loop_inv s st w ->
  mark_best (bst st) = None ->
  exists st1 w1 st' w',
    epoch_loop self label 1 st w = Ok (st1, w1)
    /\ mark w1 = Some (tanh_func (atanh_mark st1))
    /\ shape_of (tanh_func (atanh_mark st1)) = s
    /\ bst st1 = snapshot (tanh_func (atanh_mark st1)) (ms st1)
    /\ epoch_loop self label (S n) st w = Ok (st', w')
    /\ (is_nan (AverageMeter.avg (norm (ms st1))) = false ->
        established (bst st')
        /\ fle (norm_best (bst st')) (AverageMeter.avg (norm (ms st1)))
           = true).
Proof.
  intros Hinv Hnone.
  destruct (epoch_loop_first self s_not_nil label n Hinv)
    as (st1 & stop & w1 & _ & Hinv1 & Hb1 & H1 & Hn).
  rewrite (save_best_none _ _ _ Hnone) in Hb1.
  assert (Hest1 : is_nan (AverageMeter.avg (norm (ms st1))) = false ->
                  established (bst st1)).
  { intro Hnan. rewrite Hb1. split; [discriminate | exact Hnan]. }
  assert (Hnb1 : norm_best (bst st1) = AverageMeter.avg (norm (ms st1)))
    by now rewrite Hb1.
  assert (Hsh1 : shape_of (tanh_func (atanh_mark st1)) = s)
    by (rewrite shape_of_tanh_func; apply Hinv1).
  destruct stop.
  - exists st1, w1, st1, w1. repeat split; try assumption; try apply Hinv1.
    + now apply Hest1.
    + now apply Hest1.
    + rewrite Hnb1. now apply fle_refl.
  - destruct (epoch_loop_succ self s_not_nil label n Hinv1)
      as (sa & wa & _ & _ & Ha & _ & _).
    exists st1, w1, sa, wa. rewrite Hn.
    repeat split; try assumption; try apply Hinv1.
    all: destruct (epoch_loop_best self s_not_nil label n Hinv1 (Hest1 H))
        as (st' & w' & Hloop & Hest' & Hle');
      rewrite Ha in Hloop; injection Hloop as <- <-.
    + apply Hest'.
    + apply Hest'.
    + now rewrite <- Hnb1.
Qed.

(** The best result of a loop of at least one epoch is the snapshot taken
    at the end of one of its epochs. *)
Lemma epoch_loop_snapshot (n : nat) (st : mark_loop) (w : World) :
  loop_inv s st w ->
  mark_best (bst st) = None ->
  exists st' w' k sk wk m,
    epoch_loop self label (S n) st w = Ok (st', w')
    /\ 1 <= k <= S n
    /\ epoch_loop self label k st w = Ok (sk, wk)
    /\ mark wk = Some m /\ shape_of m = s
    /\ bst st' = snapshot m (ms sk).
Proof.
  intros Hinv Hnone. induction n as [|n IH].
  - destruct (epoch_loop_from_start 0 Hinv Hnone)
      as (st1 & w1 & _ & _ & H1 & Hm1 & Hsh1 & Hb1 & _).
    exists st1, w1, 1, st1, w1, (tanh_func (atanh_mark st1)).
    repeat split; try assumption; lia.
  - destruct IH
      as (sa & wa & k & sk & wk & m & Ha & Hk & Hsk & Hm & Hsh & Hba).
    destruct (epoch_loop_succ self s_not_nil label (S n) Hinv)
      as (sa' & wa' & sb & wb & Ha' & Hb & Hcase).
    rewrite Ha in Ha'. injection Ha' as <- <-.
    destruct Hcase as [Heq | (mk & Hmk & Hshk & Hbb)].
    + injection Heq as -> ->.
      exists sa, wa, k, sk, wk, m. repeat split; try assumption; lia.
    + destruct (save_best_cases mk (ms sb) (bst sa)) as [Hsame | Hsnap].
      * exists sb, wb, k, sk, wk, m.
        repeat split; try assumption; try lia. congruence.
      * exists sb, wb, (S (S n)), sb, wb, mk.
        repeat split; try assumption; try lia. congruence.
Qed.

(** The best norm of a loop of at least one epoch is the lowest: the
    average norm of no epoch of the loop is below it. *)
Lemma epoch_loop_lowest (n : nat) (st : mark_loop) (w : World) :
  loop_inv s st w ->
  mark_best (bst st) = None ->
  exists st' w',
    epoch_loop self label (S n) st w = Ok (st', w')
    /\ mark_best (bst st') <> None
    /\ forall j sj wj,
         1 <= j <= S n ->
         epoch_loop self label j st w = Ok (sj, wj) ->
         flt (AverageMeter.avg (norm (ms sj))) (norm_best (bst st')) = false.
Proof.
  intros Hinv Hnone. induction n as [|n IH].
  - destruct (epoch_loop_from_start 0 Hinv Hnone)
      as (st1 & w1 & _ & _ & H1 & _ & _ & Hb1 & _).
    exists st1, w1. split; [exact H1|].
    split; [rewrite Hb1; discriminate|].
    intros j sj wj Hj Hrun. assert (j = 1) by lia. subst j.
    rewrite H1 in Hrun. injection Hrun as <- <-.
    rewrite Hb1. apply flt_irrefl.
  - destruct IH as (sa & wa & Ha & Hsome & Hlow).
    destruct (epoch_loop_succ self s_not_nil label (S n) Hinv)
      as (sa' & wa' & sb & wb & Ha' & Hb & Hcase).
    rewrite Ha in Ha'. injection Ha' as <- <-.
    exists sb, wb. split; [exact Hb|].
    destruct Hcase as [Heq | (mk & _ & _ & Hbb)].
    + injection Heq as -> ->. split; [exact Hsome|].
      intros j sj wj Hj Hrun.
      destruct (Nat.eq_dec j (S (S n))) as [->|Hne].
      * rewrite Hb in Hrun. injection Hrun as <- <-.
        apply (Hlow (S n) sa wa); [lia | exact Ha].
      * apply (Hlow j sj wj); [lia | exact Hrun].
    + split; [rewrite Hbb; apply save_best_some|].
      intros j sj wj Hj Hrun. rewrite Hbb.
      destruct (Nat.eq_dec j (S (S n))) as [->|Hne].
      * rewrite Hb in Hrun. injection Hrun as <- <-. apply save_best_self.
      * apply save_best_keeps; [exact Hsome|].
        apply (Hlow j sj wj); [lia | exact Hrun].
Qed.

End WithShape.

End OptimizeMark.

Lemma shape_not_nil (mk : tensor) : mk <> [] -> shape_of mk <> [].
Proof. intros H Hs. apply H. now apply shape_of_nil. Qed.

(** C1, as the code has it.  On a mark with at least one channel, the run
    of one epoch completes and its best norm is the average norm of that
    epoch.  If that average is a number (not NaN), then for every epoch
    count [n >= 1] the run completes with a best norm at most the first
    epoch's average norm, the best norm after [n + 1] epochs is at most the
    best norm after [n] epochs, and [optimize_mark] with [n] epochs returns
    the best mark of that run. *)
Theorem optimize_mark_norm_best_monotone :
  forall (B : Backend) (SP : ShapePreserving B) (self : ModelInspection)
         (label : nat) (w : World) (mk : tensor),
    mark w = Some mk ->
    mk <> [] ->
    exists st1 w1,
      optimize_run self label 1 w = Ok (st1, w1)
      /\ norm_best (bst st1) = AverageMeter.avg (norm (ms st1))
      /\ (is_nan (AverageMeter.avg (norm (ms st1))) = false ->
          forall n, 1 <= n ->
            exists st w' st2 w2,
              optimize_run self label n w = Ok (st, w')
              /\ fle (norm_best (bst st)) (AverageMeter.avg (norm (ms st1)))
                 = true
              /\ optimize_run self label (S n) w = Ok (st2, w2)
              /\ fle (norm_best (bst st2)) (norm_best (bst st)) = true
              /\ (defense_remask_epoch self = n ->
                  exists wf, optimize_mark self label w
                             = Ok ((mark_best (bst st),
                                    entropy_best (bst st)), wf))).
Proof.
  intros B SP self label w mk Hmk Hne.
  pose proof (shape_not_nil Hne) as Hs.
  destruct (optimize_init_ok w Hmk) as (st0 & w0 & Hinit & Hinv & Hb0 & _).
  assert (Hnone : mark_best (bst st0) = None) by now rewrite Hb0.
  destruct (epoch_loop_from_start self label Hs 0 Hinv Hnone)
    as (st1 & w1 & _ & _ & H1 & _ & _ & Hb1 & _).
  exists st1, w1. rewrite (optimize_run_eq self label 1 w Hinit).
  split; [exact H1|]. split; [now rewrite Hb1|].
  intros Hnan [|n] Hn; [lia|].
  destruct (epoch_loop_from_start self label Hs n Hinv Hnone)
    as (st1' & w1' & st & w' & H1' & _ & _ & _ & Hrun & Hgood).
  rewrite H1 in H1'. injection H1' as <- <-.
  destruct (Hgood Hnan) as [Hest Hle].
  destruct (epoch_loop_succ self Hs label (S n) Hinv)
    as (sa & wa & st2 & w2 & Ha & Hrun2 & Hcase).
  rewrite Hrun in Ha. injection Ha as <- <-.
  exists st, w', st2, w2.
  rewrite !(optimize_run_eq self label _ w Hinit).
  repeat split; try assumption.
  - destruct Hcase as [Heq | (mk2 & _ & _ & Hb2)].
    + injection Heq as -> _. apply fle_refl, Hest.
    + rewrite Hb2. now apply save_best_established.
  - intros Hepoch. eexists. apply optimize_mark_eq.
    rewrite Hepoch, (optimize_run_eq self label _ w Hinit). exact Hrun.
Qed.

(** C5.  For every epoch count [>= 1], on a mark with at least one channel,
    [optimize_mark] returns normally, with a mark and an entropy that are
    not [None] and with that mark left in the attack.  The mark is the best
    so far: it is the one at the end of one of the epochs run, the entropy
    and the best norm are the epoch averages of that same epoch, and the
    average norm of no epoch run is below that best norm.  Nothing is
    required of the values the framework computes: they may be NaN. *)
Theorem optimize_mark_returns_best :
  forall (B : Backend) (SP : ShapePreserving B) (self : ModelInspection)
         (label : nat) (w : World) (mk : tensor),
    mark w = Some mk ->
    mk <> [] ->
    1 <= defense_remask_epoch self ->
    exists m e w',
      optimize_mark self label w = Ok ((Some m, Some e), w')
      /\ mark w' = Some m
      /\ exists k sk wk st wn,
           1 <= k <= defense_remask_epoch self
           /\ optimize_run self label k w = Ok (sk, wk)
           /\ mark wk = Some m
           /\ e = AverageMeter.avg (entropy (ms sk))
           /\ optimize_run self label (defense_remask_epoch self) w
              = Ok (st, wn)
           /\ norm_best (bst st) = AverageMeter.avg (norm (ms sk))
           /\ forall j sj wj,
                1 <= j <= defense_remask_epoch self ->
                optimize_run self label j w = Ok (sj, wj) ->
                flt (AverageMeter.avg (norm (ms sj))) (norm_best (bst st))
                = false.
Proof.
  intros B SP self label w mk Hmk Hne Hn.
  pose proof (shape_not_nil Hne) as Hs.
  destruct (optimize_init_ok w Hmk) as (st0 & w0 & Hinit & Hinv & Hb0 & _).
  assert (Hnone : mark_best (bst st0) = None) by now rewrite Hb0.
  destruct (defense_remask_epoch self) as [|n] eqn:Hepoch; [lia|].
  destruct (epoch_loop_snapshot self label Hs n Hinv Hnone)
    as (st & wn & k & sk & wk & m & Hrun & Hk & Hsk & Hm & _ & Hb).
  destruct (epoch_loop_lowest self label Hs n Hinv Hnone)
    as (st' & wn' & Hrun' & _ & Hlow).
  rewrite Hrun in Hrun'. injection Hrun' as <- <-.
  rewrite <- (optimize_run_eq self label (S n) w Hinit) in Hrun.
  rewrite <- (optimize_run_eq self label k w Hinit) in Hsk.
  exists m, (AverageMeter.avg (entropy (ms sk))),
    {| mark := Some m; gen := gen wn |}.
  split; [|split; [reflexivity|]].
  - rewrite <- Hepoch in Hrun. rewrite (optimize_mark_eq self label w Hrun).
    now rewrite Hb.
  - exists k, sk, wk, st, wn.
    split; [lia|]. split; [exact Hsk|]. split; [exact Hm|].
    split; [reflexivity|]. split; [exact Hrun|].
    split; [now rewrite Hb|].
    intros j sj wj Hj Hjrun.
    rewrite (optimize_run_eq self label j w Hinit) in Hjrun.
    exact (Hlow j sj wj Hj Hjrun).
Qed.

(** C7.  Every inner iteration of [optimize_mark] reads the mark, computes
    as batch loss the criterion of the model's output on the inputs with
    the mark applied, against the target label repeated once per input,
    plus the cost times the L1 norm of the last channel of the mark, adds
    it to the loss meter, and makes one step of the optimiser on that very
    loss as a function of the parameter, the mark being the
    reparameterised parameter; it leaves the reparameterised new parameter
    as the mark.  A run of [optimize_mark] consists of these iterations:
    its parameter is the random initial one after one such step per batch
    of the epochs run, in order. *)
Theorem batch_loss_entropy_plus_cost_norm :
  forall (B : Backend) (self : ModelInspection) (label : nat),
    (forall (st st' : mark_loop) (data : Inp * list nat) (w w' : World),
        batch_step self label st data w = Ok (st', w') ->
        exists mk ch,
          mark w = Some mk
          /\ getitem_last mk = Ok ch
          /\ entropy_plus_cost_norm self label data mk
             = Ok (fadd (criterion (model (add_mark mk (fst data)))
                           (map (fun _ => label) (snd data)))
                        (fmul (cost self) (norm_p1 ch)))
          /\ losses (ms st')
             = AverageMeter.update (losses (ms st))
                 (fadd (criterion (model (add_mark mk (fst data)))
                          (map (fun _ => label) (snd data)))
                       (fmul (cost self) (norm_p1 ch)))
                 (length (snd data))
          /\ (atanh_mark st', optimizer st')
             = backward_step (optimizer st)
                 (fun a => entropy_plus_cost_norm self label data
                             (tanh_func a))
                 (atanh_mark st)
          /\ mark w' = Some (tanh_func (atanh_mark st')))
    /\ (forall (n : nat) (w w' : World) (st : mark_loop) (mk : tensor),
          mark w = Some mk ->
          optimize_run self label n w = Ok (st, w') ->
          exists k,
            k <= n /\ (1 <= n -> 1 <= k)
            /\ (atanh_mark st, optimizer st)
               = fold_left (descent_step self label)
                   (epoch_batches k (snd (randn_like mk (gen w))))
                   (fst (randn_like mk (gen w)), Adam)).
Proof.
  intros B self label. split.
  - intros st st' data w w' Hstep. apply batch_step_inv in Hstep.
    destruct Hstep as (mk & ch & Hmk & Hch & _ & _ & Hm' & _ & Hd & Hl).
    exists mk, ch. split; [exact Hmk|]. split; [exact Hch|].
    split; [unfold entropy_plus_cost_norm; now rewrite Hch|].
    split; [exact Hl|]. split; [exact Hd | exact Hm'].
  - intros n w w' st mk Hmk Hrun.
    eapply optimize_run_descent; eassumption.
Qed.

(* ------------------------------------------------------------------ *)
(** ** The sweep over the classes *)

Lemma all_tensors_some (l : list tensor) : all_tensors (map Some l) = Ok l.
Proof.
  induction l as [|t l IH]; simpl; [reflexivity | now rewrite IH].
Qed.

Lemma torch_as_tensor_some (l : list pyfloat) :
  torch_as_tensor (map Some l) = Ok l.
Proof.
  induction l as [|x l IH]; simpl; [reflexivity | now rewrite IH].
Qed.

Lemma torch_stack_some (s : list (list nat)) (l : list tensor) :
  l <> [] ->
  Forall (fun t => shape_of t = s) l ->
  torch_stack (map Some l) = Ok l.
Proof.
  intros Hne Hall. unfold torch_stack. rewrite all_tensors_some.
  destruct l as [|t l]; [congruence|].
  inversion Hall as [|? ? Ht Hl]; subst.
  assert (Hb : forallb (same_shapeb t) l = true).
  { apply forallb_forall. intros x Hx. unfold same_shapeb.
    rewrite Forall_forall in Hl. rewrite (Hl x Hx).
    destruct (list_eq_dec _ _ _); [reflexivity | congruence]. }
  now rewrite Hb.
Qed.

Lemma firstn_seq_le (k : nat) :
  forall a n, k <= n -> firstn k (seq a n) = seq a k.
Proof.
  induction k as [|k IH]; intros a n Hk; [reflexivity|].
  destruct n as [|n]; [lia|]. simpl. f_equal. apply IH. lia.
Qed.

Section Sweep.

Context {B : Backend} {SP : ShapePreserving B}.
Variable self : ModelInspection.
Hypothesis epochs_pos : 1 <= defense_remask_epoch self.
Variable s : list (list nat).
Hypothesis s_not_nil : s <> [].

(** With at least one epoch, [optimize_mark] returns a mark of the shape
    of the mark it started from, and leaves it in the attack. *)
Lemma optimize_mark_ok (label : nat) (w : World) (mk : tensor) :
  mark w = Some mk ->
  shape_of mk = s ->
  exists m e w',
    optimize_mark self label w = Ok ((Some m, Some e), w')
    /\ mark w' = Some m /\ shape_of m = s.
Proof.
  intros Hmk Hsh.
  destruct (optimize_init_ok w Hmk) as (st0 & w0 & Hinit & Hinv & Hb0 & _).
  rewrite Hsh in Hinv.
  assert (Hnone : mark_best (bst st0) = None) by now rewrite Hb0.
  destruct (defense_remask_epoch self) as [|n] eqn:Hepoch; [lia|].
  destruct (epoch_loop_snapshot self label s_not_nil n Hinv Hnone)
    as (st & wn & k & sk & wk & m & Hrun & _ & _ & _ & Hm & Hb).
  rewrite <- (optimize_run_eq self label (S n) w Hinit) in Hrun.
  rewrite <- Hepoch in Hrun.
  exists m, (AverageMeter.avg (entropy (ms sk))),
    {| mark := Some m; gen := gen wn |}.
  rewrite (optimize_mark_eq self label w Hrun), Hb.
  repeat split. exact Hm.
Qed.

(** The loop over the labels appends one result per label, in the order of
    the labels; the [i]-th is what [optimize_mark] returns for the [i]-th
    label in the world the first [i] labels leave. *)
Lemma sweep_loop_ok (labels : list nat) :
  forall (ml : list (option tensor)) (ll : list (option pyfloat))
         (w : World) (mk : tensor),
    mark w = Some mk ->
    shape_of mk = s ->
    exists marks losses w',
      sweep_loop self labels ml ll w
      = Ok ((ml ++ map Some marks, ll ++ map Some losses), w')
      /\ length marks = length labels
      /\ length losses = length labels
      /\ Forall (fun t => shape_of t = s) marks
      /\ (forall i, i < length labels ->
            exists pre wi wi',
              sweep_loop self (firstn i labels) ml ll w = Ok (pre, wi)
              /\ optimize_mark self (nth i labels 0) wi
                 = Ok ((Some (nth i marks []), Some (nth i losses NaN)),
                       wi')).
Proof.
  induction labels as [|label rest IH]; intros ml ll w mk Hmk Hsh.
  - exists [], [], w. simpl. rewrite !app_nil_r. unfold ret.
    repeat split; try constructor. intros i Hi. inversion Hi.
  - destruct (optimize_mark_ok label w Hmk Hsh)
      as (m & e & w1 & Hopt & Hm1 & Hsh1).
    destruct (IH (ml ++ [Some m]) (ll ++ [Some e]) w1 m Hm1 Hsh1)
      as (marks & losses & w' & Hloop & Hlm & Hll & Hall & Hord).
    exists (m :: marks), (e :: losses), w'.
    simpl. unfold bind. rewrite Hopt. simpl.
    rewrite Hloop, <- !app_assoc. simpl.
    repeat split; try (now f_equal); try (now constructor).
    intros [|i] Hi.
    + exists (ml, ll), w, w1. simpl. unfold ret. now split.
    + destruct (Hord i ltac:(simpl in Hi; lia))
        as (pre & wi & wi' & Hpre & Hi').
      exists pre, wi, wi'. simpl. unfold bind. rewrite Hopt. simpl.
      now split.
Qed.

Lemma get_mark_loss_list_ok (w : World) (mk : tensor) :
  1 <= num_classes self ->
  mark w = Some mk ->
  shape_of mk = s ->
  exists mark_list loss_list w',
    get_mark_loss_list self w = Ok ((mark_list, loss_list), w')
    /\ length mark_list = num_classes self
    /\ length loss_list = num_classes self
    /\ Forall (fun t => shape_of t = s) mark_list
    /\ (forall label, label < num_classes self ->
          exists pre wl wl',
            sweep_loop self (seq 0 label) [] [] w = Ok (pre, wl)
            /\ optimize_mark self label wl
               = Ok ((Some (nth label mark_list []),
                      Some (nth label loss_list NaN)), wl')).
Proof.
  intros Hn Hmk Hsh.
  destruct (sweep_loop_ok (seq 0 (num_classes self)) [] [] w Hmk Hsh)
    as (marks & losses & w' & Hloop & Hlm & Hll & Hall & Hord).
  rewrite length_seq in Hlm, Hll.
  exists marks, losses, w'. unfold get_mark_loss_list, bind, lift.
  rewrite Hloop. simpl.
  assert (Hne : marks <> []).
  { destruct marks; [simpl in Hlm; lia | discriminate]. }
  rewrite (torch_stack_some Hne Hall), torch_as_tensor_some.
  unfold ret. repeat split; try assumption.
  intros label Hlabel.
  destruct (Hord label ltac:(rewrite length_seq; exact Hlabel))
    as (pre & wl & wl' & Hpre & Hopt).
  exists pre, wl, wl'.
  rewrite firstn_seq_le in Hpre by lia.
  rewrite seq_nth in Hopt by exact Hlabel. now split.
Qed.

End Sweep.

(** C6.  With at least one epoch and at least one class, from an attack
    mark of [c + 1] channels, [detect] installs a zero mark of shape
    [(c + 1, height, width)] and the sweep returns
    exactly [num_classes] marks and as many losses, each mark of shape
    [(c + 1, height, width)]; the pair at position [label] is what
    [optimize_mark label] returns after the labels below it were swept, so
    the pairs are those of the labels [0 .. num_classes - 1] in order. *)
Theorem inspection_sweep_pairs :
  forall (B : Backend) (SP : ShapePreserving B) (self : ModelInspection)
         (height width c : nat) (w : World) (mk : tensor),
    1 <= defense_remask_epoch self ->
    1 <= num_classes self ->
    mark w = Some mk ->
    length mk = S c ->
    exists mark_list loss_list w1 w',
      detect_new_mark height width w = Ok (tt, w1)
      /\ get_mark_loss_list self w1 = Ok ((mark_list, loss_list), w')
      /\ detect_sweep self height width w = Ok ((mark_list, loss_list), w')
      /\ length mark_list = num_classes self
      /\ length loss_list = num_classes self
      /\ Forall (has_shape (S c) height width) mark_list
      /\ (forall label, label < num_classes self ->
            exists pre wl wl',
              sweep_loop self (seq 0 label) [] [] w1 = Ok (pre, wl)
              /\ optimize_mark self label wl
                 = Ok ((Some (nth label mark_list []),
                        Some (nth label loss_list NaN)), wl')).
Proof.
  intros B SP self height width c w mk He Hn Hmk Hc.
  set (w1 := {| mark := Some (zeros (S c) height width); gen := gen w |}).
  assert (Hnew : detect_new_mark height width w = Ok (tt, w1)).
  { unfold detect_new_mark, bind, get_mark, set_mark. rewrite Hmk. simpl.
    now rewrite Hc. }
  assert (Hs : shape3 (S c) height width <> []) by discriminate.
  destruct (@get_mark_loss_list_ok B SP self He _ Hs w1 _ Hn eq_refl
              (shape_of_zeros (S c) height width))
    as (mark_list & loss_list & w' & Hsweep & Hlm & Hll & Hall & Hord).
  exists mark_list, loss_list, w1, w'.
  repeat split; try assumption.
  unfold detect_sweep, bind. now rewrite Hnew.
Qed.

(* ------------------------------------------------------------------ *)
(** ** TrojanNN.preprocess_mark leaves the mask channel alone *)

Lemma shape_of_removelast (t : tensor) :
  shape_of (removelast t) = removelast (shape_of t).
Proof.
  induction t as [|ch t IH]; [reflexivity|].
  destruct t as [|ch' t]; [reflexivity|].
  change (shape_of (ch :: removelast (ch' :: t))
          = map (fun row => length row) ch
              :: removelast (shape_of (ch' :: t))).
  rewrite <- IH. reflexivity.
Qed.

(** Assigning to [t[:-1]] keeps [t[-1]] and the shape of [t]. *)
Lemma setitem_init_frame (t v t' : tensor) :
  setitem_init t v = Ok t' ->
  getitem_last t' = getitem_last t /\ shape_of t' = shape_of t.
Proof.
  unfold setitem_init.
  destruct (list_eq_dec _ _ _) as [Heq|]; [|discriminate].
  intro H. injection H as <-.
  destruct t as [|c0 t0].
  - simpl in Heq. apply shape_of_nil in Heq. subst v. now split.
  - assert (Hne : c0 :: t0 <> []) by discriminate.
    destruct (exists_last Hne) as (t1 & c & Ht). rewrite Ht in *.
    rewrite removelast_last in Heq.
    rewrite length_app, Nat.add_sub. simpl length.
    rewrite skipn_app, skipn_all, Nat.sub_diag. simpl.
    rewrite !getitem_last_app. split; [reflexivity|].
    unfold shape_of. rewrite !map_app. f_equal. exact Heq.
Qed.

Lemma setitem_init_ok (t v : tensor) :
  shape_of v = shape_of (removelast t) ->
  exists t', setitem_init t v = Ok t'.
Proof.
  intro H. unfold setitem_init.
  destruct (list_eq_dec _ _ _); [eauto | contradiction].
Qed.

Section PreprocessProofs.

Context {B : Backend}.
Variable self : TrojanNN.

Lemma preprocess_step_frame (st st' : tensor * Opt) (w w' : World)
  (mk : tensor) :
  mark w = Some mk ->
  preprocess_step self st w = Ok (st', w') ->
  exists mk', mark w' = Some mk'
              /\ getitem_last mk' = getitem_last mk
              /\ shape_of mk' = shape_of mk.
Proof.
  intros Hmk. destruct st as [atanh opt].
  unfold preprocess_step, bind, get_mark, lift. rewrite Hmk.
  destruct (setitem_init mk (tanh_func atanh)) as [mk'|e] eqn:Hset;
    [|discriminate].
  unfold set_mark. simpl.
  destruct (neuron_loss self mk') as [loss|e]; [|discriminate].
  unfold ret. intro H. injection H as _ <-.
  exists mk'. split; [reflexivity|]. now apply setitem_init_frame in Hset.
Qed.

Lemma preprocess_loop_frame (n : nat) :
  forall (st st' : tensor * Opt) (w w' : World) (mk : tensor),
    mark w = Some mk ->
    preprocess_loop self n st w = Ok (st', w') ->
    exists mk', mark w' = Some mk'
                /\ getitem_last mk' = getitem_last mk
                /\ shape_of mk' = shape_of mk.
Proof.
  induction n as [|n IH]; intros st st' w w' mk Hmk H; simpl in H.
  - unfold ret in H. injection H as _ <-. now exists mk.
  - unfold bind in H.
    destruct (preprocess_step self st w) as [[st1 w1]|e] eqn:Hstep;
      [|discriminate].
    destruct (preprocess_step_frame _ _ Hmk Hstep) as (mk1 & Hmk1 & Hl1 & Hs1).
    destruct (IH _ _ _ _ _ Hmk1 H) as (mk' & Hmk' & Hl' & Hs').
    exists mk'. repeat split; congruence.
Qed.

Lemma preprocess_mark_frame (w w' : World) (mk : tensor) :
  mark w = Some mk ->
  preprocess_mark self w = Ok (tt, w') ->
  exists mk', mark w' = Some mk'
              /\ getitem_last mk' = getitem_last mk
              /\ shape_of mk' = shape_of mk.
Proof.
  intros Hmk. unfold preprocess_mark, bind, get_mark at 1, with_gen.
  rewrite Hmk. destruct (randn_like (slice_init mk) (gen w)) as [atanh g].
  set (w0 := {| mark := mark w; gen := g |}).
  destruct (preprocess_loop self (neuron_epoch self) (atanh, Adam) w0)
    as [[st1 w1]|e] eqn:Hloop; [|discriminate].
  assert (Hmk0 : mark w0 = Some mk) by exact Hmk.
  destruct (preprocess_loop_frame _ _ _ Hmk0 Hloop)
    as (mk1 & Hmk1 & Hl1 & Hs1).
  unfold get_mark, lift. rewrite Hmk1.
  destruct (setitem_init mk1 (tanh_func (fst st1))) as [mk2|e] eqn:Hset;
    [|discriminate].
  unfold set_mark. intro H. injection H as <-.
  exists mk2. split; [reflexivity|].
  apply setitem_init_frame in Hset. destruct Hset as [Hl2 Hs2].
  split; congruence.
Qed.

Section Total.

Context {SP : ShapePreserving B}.
Hypothesis batch_of_one : forall x : Inp, nonempty_batch (get_layer x).

Lemma neuron_loss_ok (mk : tensor) : exists v, neuron_loss self mk = Ok v.
Proof.
  unfold neuron_loss.
  pose proof (batch_of_one (add_mark_alpha1 mk data_zeros)) as Hne.
  destruct (get_layer (add_mark_alpha1 mk data_zeros)) as [m|t]; simpl in *.
  - destruct m; [congruence | simpl; eauto].
  - destruct t; [congruence | simpl; eauto].
Qed.

Lemma preprocess_step_ok (st : tensor * Opt) (w : World) (mk : tensor) :
  mark w = Some mk ->
  shape_of (fst st) = shape_of (removelast mk) ->
  exists st' w' mk',
    preprocess_step self st w = Ok (st', w')
    /\ mark w' = Some mk' /\ shape_of mk' = shape_of mk
    /\ shape_of (fst st') = shape_of (removelast mk').
Proof.
  intros Hmk Hsh. destruct st as [atanh opt]. simpl in Hsh.
  unfold preprocess_step, bind, get_mark, lift. rewrite Hmk.
  destruct (@setitem_init_ok mk (tanh_func atanh)) as [mk' Hset].
  { now rewrite shape_of_tanh_func. }
  rewrite Hset. unfold set_mark. simpl.
  destruct (neuron_loss_ok mk') as [loss Hloss]. rewrite Hloss.
  unfold ret. eexists _, _, mk'. split; [reflexivity|]. simpl.
  apply setitem_init_frame in Hset. destruct Hset as [_ Hs'].
  repeat split; [exact Hs'|].
  rewrite backward_step_shape, Hsh, !shape_of_removelast. now rewrite Hs'.
Qed.

Lemma preprocess_loop_ok (n : nat) :
  forall (st : tensor * Opt) (w : World) (mk : tensor),
    mark w = Some mk ->
    shape_of (fst st) = shape_of (removelast mk) ->
    exists st' w' mk',
      preprocess_loop self n st w = Ok (st', w')
      /\ mark w' = Some mk' /\ shape_of mk' = shape_of mk
      /\ shape_of (fst st') = shape_of (removelast mk').
Proof.
  induction n as [|n IH]; intros st w mk Hmk Hsh; simpl.
  - exists st, w, mk. unfold ret. now repeat split.
  - destruct (preprocess_step_ok st w Hmk Hsh)
      as (st1 & w1 & mk1 & Hstep & Hmk1 & Hs1 & Hsh1).
    destruct (IH st1 w1 mk1 Hmk1 Hsh1)
      as (st' & w' & mk' & Hloop & Hmk' & Hs' & Hsh').
    exists st', w', mk'. unfold bind. rewrite Hstep.
    repeat split; try assumption. congruence.
Qed.

Lemma preprocess_mark_ok (w : World) (mk : tensor) :
  mark w = Some mk ->
  exists w', preprocess_mark self w = Ok (tt, w').
Proof.
  intro Hmk. unfold preprocess_mark, bind, get_mark at 1, with_gen.
  rewrite Hmk.
  pose proof (randn_like_shape (slice_init mk) (gen w)) as Hr.
  destruct (randn_like (slice_init mk) (gen w)) as [atanh g]. simpl in Hr.
  set (w0 := {| mark := mark w; gen := g |}).
  assert (Hmk0 : mark w0 = Some mk) by exact Hmk.
  destruct (preprocess_loop_ok (neuron_epoch self) (atanh, Adam) w0 Hmk0 Hr)
    as (st1 & w1 & mk1 & Hloop & Hmk1 & _ & Hsh1).
  rewrite Hloop. unfold get_mark, lift. rewrite Hmk1.
  destruct (@setitem_init_ok mk1 (tanh_func (fst st1))) as [mk2 Hset].
  { now rewrite shape_of_tanh_func. }
  rewrite Hset. unfold set_mark. eauto.
Qed.

End Total.

End PreprocessProofs.

(** C9.  From a mark [mk], every run of the preprocessing loop, over any
    number of steps, and [preprocess_mark] as a whole leave a mark whose
    last channel [mark[-1]] is that of [mk] and whose shape is that of
    [mk]: only the channels [mark[:-1]] are assigned.  When the optimiser
    keeps shapes and [get_layer] returns the features of at least one
    input, [preprocess_mark] completes. *)
Theorem preprocess_mark_keeps_mask :
  forall (B : Backend) (self : TrojanNN) (w : World) (mk : tensor),
    mark w = Some mk ->
    (forall n st st' w',
        preprocess_loop self n st w = Ok (st', w') ->
        exists mk', mark w' = Some mk'
                    /\ getitem_last mk' = getitem_last mk
                    /\ shape_of mk' = shape_of mk)
    /\ (forall w',
          preprocess_mark self w = Ok (tt, w') ->
          exists mk', mark w' = Some mk'
                      /\ getitem_last mk' = getitem_last mk
                      /\ shape_of mk' = shape_of mk)
    /\ (ShapePreserving B ->
        (forall x : Inp, nonempty_batch (get_layer x)) ->
        exists w', preprocess_mark self w = Ok (tt, w')).
Proof.
  intros B self w mk Hmk. repeat split.
  - intros n st st' w' H. eapply preprocess_loop_frame; eassumption.
  - intros w' H. eapply preprocess_mark_frame; eassumption.
  - intros SP Hb. eapply preprocess_mark_ok; eassumption.
Qed.

(* ------------------------------------------------------------------ *)
(** ** The claims on the small framework *)

Lemma toy_shape_preserving (diverge : bool) :
  ShapePreserving (Toy.backend diverge).
Proof.
  intros o f a. simpl. unfold Toy.step. destruct diverge; simpl.
  - apply shape_of_tmap.
  - destruct (f a); simpl; [apply shape_of_tmap | reflexivity].
Qed.

Lemma toy_batch_of_one (diverge : bool) :
  forall x : @Inp (Toy.backend diverge),
    nonempty_batch (@get_layer (Toy.backend diverge) x).
Proof. intro x. simpl. discriminate. Qed.

(** Two epochs on the small framework: the first epoch's average norm is
    a number, and the best norm after two epochs is below it. *)
Lemma optimize_mark_norm_best_monotone_witness :
  exists st1 w1 st w',
    @optimize_run (Toy.backend false) (Toy.inspection 2 1) 0 1
      (Toy.world false) = Ok (st1, w1)
    /\ is_nan (AverageMeter.avg (norm (ms st1))) = false
    /\ @optimize_run (Toy.backend false) (Toy.inspection 2 1) 0 2
         (Toy.world false) = Ok (st, w')
    /\ fle (norm_best (bst st)) (AverageMeter.avg (norm (ms st1))) = true.
Proof.
  destruct (@optimize_mark_norm_best_monotone (Toy.backend false)
              (@toy_shape_preserving false) (Toy.inspection 2 1) 0
              (Toy.world false) Toy.mark0 eq_refl)
    as (st1 & w1 & Hrun1 & _ & Hmono).
  { discriminate. }
  assert (Hnum : is_nan (AverageMeter.avg (norm (ms st1))) = false).
  { revert Hrun1. vm_compute. intro H. injection H as <- _. reflexivity. }
  destruct (Hmono Hnum 2) as (st & w' & _ & _ & Hrun & Hle & _).
  { repeat constructor. }
  exists st1, w1, st, w'. repeat split; assumption.
Defined.

(** C1, as stated, fails.  When the first epoch's average norm is NaN (here
    an optimiser step has turned the parameter into NaN before the second
    batch), the guard makes NaN the best norm; it is not less than or equal
    to the first epoch's average, and the best norm after two epochs is not
    less than or equal to the best norm after one. *)
Lemma optimize_mark_norm_best_nan :
  exists st1 w1 st2 w2,
    @optimize_run (Toy.backend true) (Toy.inspection 1 1) 0 1
      (Toy.world true) = Ok (st1, w1)
    /\ @optimize_mark (Toy.backend true) (Toy.inspection 1 1) 0
         (Toy.world true)
       = Ok ((mark_best (bst st1), entropy_best (bst st1)),
             {| mark := mark_best (bst st1); gen := gen w1 |})
    /\ AverageMeter.avg (norm (ms st1)) = NaN
    /\ norm_best (bst st1) = NaN
    /\ fle (norm_best (bst st1)) (AverageMeter.avg (norm (ms st1))) = false
    /\ @optimize_run (Toy.backend true) (Toy.inspection 1 1) 0 2
         (Toy.world true) = Ok (st2, w2)
    /\ fle (norm_best (bst st2)) (norm_best (bst st1)) = false.
Proof.
  eexists _, _, _, _.
  split; [vm_compute; reflexivity|].
  split; [vm_compute; reflexivity|].
  split; [reflexivity|]. split; [reflexivity|]. split; [reflexivity|].
  split; [vm_compute; reflexivity | reflexivity].
Qed.

(** Two epochs with average norms 2131/1260 and then 139/90: the mark of
    the second epoch is returned, and the norm of the first is not below
    the best norm. *)
Lemma optimize_mark_returns_best_witness :
  exists e w' st wn s1 w1,
    @optimize_mark (Toy.backend false) (Toy.inspection 2 1) 0
      (Toy.world false)
    = Ok ((Some [[[Fin (1 # 6)%Q; Fin (1 # 4)%Q]];
                 [[Fin (1 # 2)%Q; Fin (3 # 4)%Q]]], Some e), w')
    /\ @optimize_run (Toy.backend false) (Toy.inspection 2 1) 0 2
         (Toy.world false) = Ok (st, wn)
    /\ norm_best (bst st) = Fin (139 # 90)%Q
    /\ @optimize_run (Toy.backend false) (Toy.inspection 2 1) 0 1
         (Toy.world false) = Ok (s1, w1)
    /\ AverageMeter.avg (norm (ms s1)) = Fin (2131 # 1260)%Q
    /\ flt (AverageMeter.avg (norm (ms s1))) (norm_best (bst st)) = false.
Proof.
  destruct (@optimize_mark_returns_best (Toy.backend false)
              (@toy_shape_preserving false) (Toy.inspection 2 1) 0
              (Toy.world false) Toy.mark0 eq_refl
              ltac:(discriminate) (le_S 1 1 (le_n 1)))
    as (m & e & w' & Hopt & _ & k & sk & wk & st & wn & _ & _ & _ & _
        & Hrun & _ & Hlow).
  destruct (@optimize_run (Toy.backend false) (Toy.inspection 2 1) 0 1
              (Toy.world false)) as [[s1 w1]|err] eqn:Hrun1;
    [|vm_compute in Hrun1; discriminate].
  exists e, w', st, wn, s1, w1.
  split; [rewrite Hopt; revert Hopt; vm_compute; intro H;
          now injection H as -> _ _|].
  split; [exact Hrun|].
  split; [revert Hrun; vm_compute; intro H; now injection H as <- _|].
  split; [reflexivity|].
  split; [revert Hrun1; vm_compute; intro H; now injection H as <- _|].
  apply (Hlow 1 s1 w1); [simpl; lia | exact Hrun1].
Defined.

(** Two epochs of two batches: the parameter after the run is the random
    one after a step per batch of the epochs run. *)
Lemma batch_loss_entropy_plus_cost_norm_witness :
  exists st w' k,
    @optimize_run (Toy.backend false) (Toy.inspection 2 1) 0 2
      (Toy.world false) = Ok (st, w')
    /\ 1 <= k <= 2
    /\ (atanh_mark st, optimizer st)
       = fold_left (@descent_step (Toy.backend false) (Toy.inspection 2 1) 0)
           (@epoch_batches (Toy.backend false) k
              (snd (@randn_like (Toy.backend false) Toy.mark0 0)))
           (fst (@randn_like (Toy.backend false) Toy.mark0 0), 0).
Proof.
  destruct (@optimize_run (Toy.backend false) (Toy.inspection 2 1) 0 2
              (Toy.world false)) as [[st w']|err] eqn:Hrun;
    [|vm_compute in Hrun; discriminate].
  destruct (@batch_loss_entropy_plus_cost_norm (Toy.backend false)
              (Toy.inspection 2 1) 0) as [_ Hruns].
  destruct (Hruns 2 (Toy.world false) w' st Toy.mark0 eq_refl Hrun)
    as (k & Hk & Hk1 & Hfold).
  exists st, w', k. split; [reflexivity|].
  split; [split; [apply Hk1; lia | exact Hk]|]. exact Hfold.
Defined.

(** A sweep of two classes with two epochs each, on a 1 x 2 image. *)
Lemma inspection_sweep_pairs_witness :
  exists mark_list loss_list w',
    @detect_sweep (Toy.backend false) (Toy.inspection 2 2) 1 2
      (Toy.world false) = Ok ((mark_list, loss_list), w')
    /\ length mark_list = 2 /\ length loss_list = 2
    /\ Forall (has_shape 2 1 2) mark_list.
Proof.
  destruct (@inspection_sweep_pairs (Toy.backend false)
              (@toy_shape_preserving false) (Toy.inspection 2 2) 1 2 1
              (Toy.world false) Toy.mark0
              (le_S 1 1 (le_n 1)) (le_S 1 1 (le_n 1)) eq_refl eq_refl)
    as (ml & ll & w1 & w' & _ & _ & Hsweep & Hlm & Hll & Hall & _).
  exists ml, ll, w'. repeat split; assumption.
Defined.

(** Three steps of preprocessing on the small framework: the mask channel
    of the mark is the one it started with. *)
Lemma preprocess_mark_keeps_mask_witness :
  exists w' mk',
    @preprocess_mark (Toy.backend false) Toy.attack (Toy.world false)
    = Ok (tt, w')
    /\ mark w' = Some mk'
    /\ getitem_last mk' = Ok [[Fin 1%Q; Fin 0%Q]].
Proof.
  destruct (@preprocess_mark_keeps_mask (Toy.backend false) Toy.attack
              (Toy.world false) Toy.mark0 eq_refl)
    as (_ & Hframe & Htotal).
  destruct (Htotal (@toy_shape_preserving false) (@toy_batch_of_one false))
    as (w' & Hrun).
  destruct (Hframe w' Hrun) as (mk' & Hmk' & Hlast & _).
  exists w', mk'. repeat split; assumption.
Defined.

(* ------------------------------------------------------------------ *)
(** ** Model names *)

Module ModelsFacts.

Import Models.

Local Open Scope string_scope.

Lemma append_assoc (a b c : string) : (a ++ b) ++ c = a ++ (b ++ c).
Proof.
  induction a as [|x a IH]; simpl; [reflexivity | now rewrite IH].
Qed.

Lemma append_nil_r (a : string) : a ++ "" = a.
Proof.
  induction a as [|x a IH]; simpl; [reflexivity | now rewrite IH].
Qed.

Lemma lower_append (a b : string) : lower (a ++ b) = lower a ++ lower b.
Proof.
  induction a as [|x a IH]; simpl; [reflexivity | now rewrite IH].
Qed.

Lemma string_forall_append (p : ascii -> bool) (a b : string) :
  string_forall p (a ++ b) = string_forall p a && string_forall p b.
Proof.
  induction a as [|x a IH]; simpl; [reflexivity|].
  now rewrite IH, andb_assoc.
Qed.

(** The case analysis on a character, by its code. *)
Lemma ascii_cases (P : ascii -> Prop) :
  (forall n, n < 256 -> P (ascii_of_nat n)) -> forall c, P c.
Proof.
  intros H c. rewrite <- (ascii_nat_embedding c). apply H.
  apply nat_ascii_bounded.
Qed.

Lemma lower_char_is_lower (c : ascii) :
  is_letter c = true -> is_lower (lower_char c) = true.
Proof.
  unfold is_letter, lower_char. destruct (is_upper c) eqn:Hu; simpl.
  - intros _. unfold is_upper in Hu. unfold is_lower.
    apply andb_true_iff in Hu. destruct Hu as [H1 H2].
    apply Nat.leb_le in H1, H2.
    rewrite nat_ascii_embedding by lia.
    apply andb_true_iff. split; apply Nat.leb_le; lia.
  - trivial.
Qed.

Lemma lower_char_not_letter (c : ascii) :
  is_letter c = false -> lower_char c = c.
Proof.
  unfold is_letter, lower_char. destruct (is_upper c); [discriminate|].
  reflexivity.
Qed.

Lemma is_lower_not_upper (c : ascii) : is_lower c = true -> is_upper c = false.
Proof.
  unfold is_lower, is_upper. intro H.
  apply andb_true_iff in H. destruct H as [H1 H2].
  apply Nat.leb_le in H1, H2.
  apply andb_false_iff. right. apply Nat.leb_gt. lia.
Qed.

Lemma is_lower_letter (c : ascii) : is_lower c = true -> is_letter c = true.
Proof. unfold is_letter. intros ->. apply orb_true_r. Qed.

Lemma lower_char_letter (c : ascii) :
  is_letter (lower_char c) = is_letter c.
Proof.
  destruct (is_letter c) eqn:Hl.
  - apply is_lower_letter, lower_char_is_lower, Hl.
  - now rewrite (lower_char_not_letter _ Hl).
Qed.

Lemma lower_char_idem (c : ascii) : lower_char (lower_char c) = lower_char c.
Proof.
  destruct (is_letter c) eqn:Hl.
  - pose proof (lower_char_is_lower _ Hl) as H.
    apply is_lower_not_upper in H.
    unfold lower_char at 1. now rewrite H.
  - now rewrite !(lower_char_not_letter _ Hl).
Qed.

Lemma lower_idem (s : string) : lower (lower s) = lower s.
Proof.
  induction s as [|c s IH]; simpl; [reflexivity|].
  now rewrite lower_char_idem, IH.
Qed.

Lemma lower_of_lower (s : string) :
  string_forall is_lower s = true -> lower s = s.
Proof.
  induction s as [|c s IH]; simpl; [reflexivity|].
  intro H. apply andb_true_iff in H. destruct H as [Hc Hs].
  rewrite (IH Hs). unfold lower_char.
  now rewrite (is_lower_not_upper _ Hc).
Qed.

Lemma lower_letters_lower (s : string) :
  string_forall is_letter s = true -> string_forall is_lower (lower s) = true.
Proof.
  induction s as [|c s IH]; simpl; [reflexivity|].
  intro H. apply andb_true_iff in H. destruct H as [Hc Hs].
  now rewrite (lower_char_is_lower _ Hc), (IH Hs).
Qed.

Lemma lower_forall_letter (s : string) :
  string_forall is_letter (lower s) = string_forall is_letter s.
Proof.
  induction s as [|c s IH]; simpl; [reflexivity|].
  now rewrite lower_char_letter, IH.
Qed.

Lemma append_not_empty (a : string) (c : ascii) : a ++ String c "" <> "".
Proof. destruct a; discriminate. Qed.

(** A run of letters is read into the current run. *)
Lemma findall_letters_run (k : string) :
  forall rest cur,
    string_forall is_letter k = true ->
    findall_letters (k ++ rest) cur = findall_letters rest (cur ++ k).
Proof.
  induction k as [|c k IH]; intros rest cur H; simpl in *.
  - now rewrite append_nil_r.
  - apply andb_true_iff in H. destruct H as [Hc Hk].
    rewrite Hc, (IH _ _ Hk), append_assoc. reflexivity.
Qed.

(** Characters that are not letters are skipped. *)
Lemma findall_letters_skip (pre : string) :
  forall rest,
    string_forall (fun c => negb (is_letter c)) pre = true ->
    findall_letters (pre ++ rest) "" = findall_letters rest "".
Proof.
  induction pre as [|c pre IH]; intros rest H; simpl in *; [reflexivity|].
  apply andb_true_iff in H. destruct H as [Hc Hp].
  apply negb_true_iff in Hc. rewrite Hc. now apply IH.
Qed.

(** The first match, when a run ends. *)
Lemma findall_letters_end (cur rest : string) :
  cur <> "" ->
  ends_run rest = true ->
  exists more, findall_letters rest cur = cur :: more.
Proof.
  intros Hne He. destruct rest as [|c rest]; simpl in *.
  - destruct cur; [congruence | eauto].
  - apply negb_true_iff in He. rewrite He.
    destruct cur; [congruence | eauto].
Qed.

(** The runs found are runs of letters, and they are not empty. *)
Lemma findall_letters_sound (s : string) :
  forall cur m,
    string_forall is_letter cur = true ->
    In m (findall_letters s cur) ->
    string_forall is_letter m = true /\ m <> "".
Proof.
  induction s as [|c s IH]; intros cur m Hcur Hin; simpl in Hin.
  - destruct cur as [|x cur]; [contradiction|].
    destruct Hin as [<-|[]]. split; [exact Hcur | discriminate].
  - destruct (is_letter c) eqn:Hc.
    + eapply IH; [|exact Hin].
      rewrite string_forall_append, Hcur. simpl. now rewrite Hc.
    + destruct cur as [|x cur].
      * eapply IH; [|exact Hin]. reflexivity.
      * destruct Hin as [<-|Hin].
        -- split; [exact Hcur | discriminate].
        -- eapply IH; [|exact Hin]. reflexivity.
Qed.

(** No run is found exactly when no letter is read. *)
Lemma findall_letters_nil (s : string) :
  forall cur,
    findall_letters s cur = []
    <-> (cur = "" /\ string_forall (fun c => negb (is_letter c)) s = true).
Proof.
  induction s as [|c s IH]; intro cur; simpl.
  - destruct cur; split; intro H; try discriminate; auto.
    destruct H; discriminate.
  - destruct (is_letter c) eqn:Hc; simpl.
    + rewrite IH. split; intros [H1 H2]; try discriminate.
      exfalso. now apply (append_not_empty cur c).
    + destruct cur as [|x cur].
      * rewrite IH. tauto.
      * split; intro H; [discriminate | destruct H; discriminate].
Qed.

(** A name without a letter has no class. *)
Lemma get_model_class_no_letter (name : string) :
  (get_model_class name = Raise IndexError
   <-> string_forall (fun c => negb (is_letter c)) name = true)
  /\ (string_forall (fun c => negb (is_letter c)) name = false
      -> exists k, get_model_class name = Ok k).
Proof.
  unfold get_model_class.
  pose proof (findall_letters_nil name "") as Hnil.
  destruct (findall_letters name "") as [|m ms] eqn:Hf.
  - destruct Hnil as [Hnil _]. destruct (Hnil eq_refl) as [_ H].
    split; [tauto|]. intro H'. congruence.
  - split.
    + split; [discriminate|]. intro H.
      destruct Hnil as [_ Hnil]. discriminate (Hnil (conj eq_refl H)).
    + intros _. eauto.
Qed.

(** X1.  [get_model_class] raises [IndexError] exactly when the name has
    no letter of [A-Za-z]; otherwise it returns a string. *)
Theorem get_model_class_index_error :
  forall name : string,
    (get_model_class name = Raise IndexError
     <-> string_forall (fun c => negb (is_letter c)) name = true)
    /\ (string_forall (fun c => negb (is_letter c)) name = false
        -> exists k, get_model_class name = Ok k).
Proof.
  intro name. apply get_model_class_no_letter.
Qed.

Lemma get_model_class_index_error_witness :
  exists k, get_model_class "18_resnet" = Ok k.
Proof.
  destruct (get_model_class_index_error "18_resnet") as [_ H].
  apply H. reflexivity.
Defined.

(** A class name is a run of lower-case letters. *)
Lemma get_model_class_lower_run (name k : string) :
  get_model_class name = Ok k ->
  k <> "" /\ string_forall is_lower k = true.
Proof.
  unfold get_model_class.
  destruct (findall_letters name "") as [|m ms] eqn:Hf; [discriminate|].
  intro H. injection H as <-.
  destruct (@findall_letters_sound name "" m eq_refl) as [Hm Hne].
  { rewrite Hf. now left. }
  split.
  - destruct m; [congruence | discriminate].
  - now apply lower_letters_lower.
Qed.

(** X2.  The name [get_model_class] returns is not empty and consists of
    lower-case letters [a-z] only. *)
Theorem get_model_class_lowercase :
  forall name k : string,
    get_model_class name = Ok k ->
    k <> "" /\ string_forall is_lower k = true.
Proof.
  intros name k H. exact (get_model_class_lower_run name H).
Qed.

Lemma get_model_class_lowercase_witness :
  get_model_class "ResNet18_comp" = Ok "resnet"
  /\ "resnet" <> "" /\ string_forall is_lower "resnet" = true.
Proof.
  split; [reflexivity|].
  apply (@get_model_class_lowercase "ResNet18_comp" "resnet"). reflexivity.
Defined.

(** The first run of a string that begins with a run of letters. *)
Lemma get_model_class_run (k suf : string) :
  k <> "" ->
  string_forall is_letter k = true ->
  ends_run suf = true ->
  get_model_class (k ++ suf) = Ok (lower k).
Proof.
  intros Hne Hk Hs. unfold get_model_class.
  rewrite (findall_letters_run k suf "" Hk). simpl.
  destruct (@findall_letters_end k suf Hne Hs) as [more ->]. reflexivity.
Qed.

(** X3.  [get_model_class] is idempotent: applied to a name it returned,
    it returns that name. *)
Theorem get_model_class_idempotent :
  forall name k : string,
    get_model_class name = Ok k -> get_model_class k = Ok k.
Proof.
  intros name k H.
  destruct (get_model_class_lower_run _ H) as [Hne Hlow].
  rewrite <- (append_nil_r k) at 1.
  rewrite get_model_class_run; try assumption; try reflexivity.
  - now rewrite lower_of_lower.
  - clear -Hlow. induction k as [|c k IH]; simpl in *; [reflexivity|].
    apply andb_true_iff in Hlow. destruct Hlow as [Hc Hk].
    now rewrite (is_lower_letter _ Hc), IH.
Qed.

Lemma get_model_class_idempotent_witness :
  get_model_class "resnet" = Ok "resnet".
Proof.
  apply (@get_model_class_idempotent "ResNet18_comp" "resnet"). reflexivity.
Defined.

(** X4.  What precedes the first letter and what follows the first run of
    letters do not matter, nor does the case: for [pre] without letters,
    [k] a non-empty run of letters and [suf] empty or beginning with a
    character that is not a letter, the class of [pre ++ k ++ suf] is [k]
    in lower case. *)
Theorem get_model_class_first_run :
  forall pre k suf : string,
    string_forall (fun c => negb (is_letter c)) pre = true ->
    k <> "" ->
    string_forall is_letter k = true ->
    ends_run suf = true ->
    get_model_class (pre ++ k ++ suf) = Ok (lower k).
Proof.
  intros pre k suf Hpre Hne Hk Hs.
  pose proof (get_model_class_run suf Hne Hk Hs) as H.
  unfold get_model_class in *.
  now rewrite (findall_letters_skip pre _ Hpre).
Qed.

Lemma get_model_class_first_run_witness :
  get_model_class ("_" ++ "ResNet" ++ "18_comp") = Ok (lower "ResNet").
Proof.
  apply get_model_class_first_run; try reflexivity. discriminate.
Defined.

(** Lower case does not move the runs. *)
Lemma findall_letters_lower (s : string) :
  forall cur,
    findall_letters (lower s) (lower cur) = map lower (findall_letters s cur).
Proof.
  induction s as [|c s IH]; intro cur; simpl.
  - destruct cur; reflexivity.
  - rewrite lower_char_letter. destruct (is_letter c).
    + rewrite <- IH, lower_append. reflexivity.
    + destruct cur as [|x cur]; simpl.
      * apply (IH "").
      * f_equal. apply (IH "").
Qed.


(** Looking up a dict. *)
Lemma dict_get_return {V : Type} (d : list (string * V)) (key : string)
  (v : V) :
  dict_get d key = Return v -> In (key, v) d.
Proof.
  induction d as [|[k x] d IH]; simpl; [discriminate|].
  destruct (String.eqb k key) eqn:Hk.
  - apply String.eqb_eq in Hk. intro H. injection H as <-. left. congruence.
  - intro H. right. now apply IH.
Qed.

Lemma dict_get_throw {V : Type} (d : list (string * V)) (key : string)
  (e : error) :
  dict_get d key = Throw e <-> (e = KeyError key /\ ~ In key (map fst d)).
Proof.
  induction d as [|[k x] d IH]; simpl.
  - split.
    + intro H. injection H as <-. split; [reflexivity | tauto].
    + intros [-> _]. reflexivity.
  - destruct (String.eqb k key) eqn:Hk.
    + apply String.eqb_eq in Hk. split; [discriminate|].
      intros [_ H]. exfalso. apply H. now left.
    + apply String.eqb_neq in Hk. rewrite IH. tauto.
Qed.

(** X6.  Every registered name resolves to its class, whatever follows it
    that does not begin with a letter (a depth, a variant): for each entry
    [(key, cls)] of [class_dict], the class created for [key ++ suf] is
    [cls]. *)
Theorem create_model_type_registered :
  forall (key suf : string) (cls : ModelType),
    In (key, cls) class_dict ->
    ends_run suf = true ->
    create_model_type (key ++ suf) = Return cls.
Proof.
  intros key suf cls Hin Hs. unfold create_model_type.
  assert (Hkey : key <> "" /\ string_forall is_lower key = true
                 /\ dict_get class_dict key = Return cls).
  { unfold class_dict in Hin. simpl in Hin.
    repeat (destruct Hin as [Hin|Hin];
            [injection Hin as <- <-;
             split; [discriminate | split; reflexivity]|]).
    contradiction. }
  destruct Hkey as (Hne & Hlow & Hget).
  rewrite get_model_class_run; try assumption.
  - now rewrite (lower_of_lower _ Hlow).
  - clear -Hlow. induction key as [|c k IH]; simpl in *; [reflexivity|].
    apply andb_true_iff in Hlow. destruct Hlow as [Hc Hk].
    now rewrite (is_lower_letter _ Hc), IH.
Qed.

Lemma create_model_type_registered_witness :
  create_model_type ("resnet" ++ "18_comp") = Return ResNet.
Proof.
  apply create_model_type_registered; [|reflexivity].
  unfold class_dict. simpl. do 10 right. now left.
Defined.

(** X7.  How creating a model class fails: with [IndexError] exactly when
    the name has no letter, and with [KeyError k] exactly when the first
    run of letters, in lower case, is [k] and [k] is not a registered
    name.  A class that is returned is the one registered under the first
    run of letters in lower case. *)
Theorem create_model_type_errors :
  forall name : string,
    (create_model_type name = Throw (Builtin IndexError)
     <-> string_forall (fun c => negb (is_letter c)) name = true)
    /\ (forall k, create_model_type name = Throw (KeyError k)
                  <-> (get_model_class name = Ok k
                       /\ ~ In k (map fst class_dict)))
    /\ (forall cls, create_model_type name = Return cls ->
                    exists k, get_model_class name = Ok k
                              /\ In (k, cls) class_dict).
Proof.
  intro name. unfold create_model_type.
  destruct (get_model_class_no_letter name) as [Hidx _].
  destruct (get_model_class name) as [k0|e] eqn:Hg.
  - split; [|split].
    + split; intro H.
      * apply dict_get_throw in H. destruct H; discriminate.
      * apply Hidx in H. discriminate.
    + intro k. split.
      * intro H. apply dict_get_throw in H. destruct H as [H Hn].
        injection H as ->. now split.
      * intros [H Hn]. injection H as ->. apply dict_get_throw. now split.
    + intros cls H. exists k0. split; [reflexivity|].
      now apply dict_get_return.
  - assert (He : e = IndexError).
    { unfold get_model_class in Hg.
      destruct (findall_letters name ""); [now injection Hg | discriminate]. }
    subst e. split; [|split].
    + split; intro H; [now apply Hidx | reflexivity].
    + intro k. split; [discriminate | intros [H _]; discriminate].
    + intros cls H. discriminate.
Qed.

End ModelsFacts.

(* ------------------------------------------------------------------ *)
(** ** True and predicted labels of the filtering defenses *)

Lemma firstn_repeat_le {A : Type} (x : A) (h n : nat) :
  h <= n -> firstn h (repeat x n) = repeat x h.
Proof.
  revert n. induction h as [|h IH]; intros n Hh; [reflexivity|].
  destruct n as [|n]; [lia|]. simpl. f_equal. apply IH. lia.
Qed.

Lemma skipn_repeat_sub {A : Type} (x : A) (h n : nat) :
  skipn h (repeat x n) = repeat x (n - h).
Proof.
  revert n. induction h as [|h IH]; intro n; simpl.
  - now rewrite Nat.sub_0_r.
  - destruct n as [|n]; [reflexivity|]. simpl. apply IH.
Qed.

Lemma map_const_repeat {A C : Type} (c : C) (l : list A) :
  map (fun _ => c) l = repeat c (length l).
Proof.
  induction l as [|x l IH]; simpl; [reflexivity | now rewrite IH].
Qed.

(** Labels that are [False] up to position [k] and [True] after it. *)
Lemma false_then_true (k m : nat) :
  let y := repeat false k ++ repeat true m in
  length y = k + m
  /\ (forall i, i < k + m -> nth i y false = (k <=? i))
  /\ count_occ bool_dec y true = m
  /\ count_occ bool_dec y false = k.
Proof.
  simpl. repeat split.
  - now rewrite length_app, !repeat_length.
  - intros i Hi. destruct (Nat.leb_spec k i) as [Hle|Hlt].
    + rewrite app_nth2 by (rewrite repeat_length; exact Hle).
      rewrite repeat_length. apply nth_repeat_lt. lia.
    + rewrite app_nth1 by (rewrite repeat_length; exact Hlt).
      apply nth_repeat.
  - rewrite count_occ_app, count_occ_repeat_neq by discriminate.
    now rewrite count_occ_repeat_eq.
  - rewrite count_occ_app, count_occ_repeat_eq by reflexivity.
    rewrite count_occ_repeat_neq by discriminate. lia.
Qed.

Module InputFilteringFacts.

Import InputFiltering.

Lemma get_true_labels_eq (n : nat) :
  get_true_labels n = repeat false (n / 2) ++ repeat true (n - n / 2).
Proof.
  unfold get_true_labels. rewrite repeat_length.
  assert (Hh : n / 2 <= n) by (apply Nat.Div0.div_le_upper_bound; lia).
  rewrite (firstn_repeat_le false Hh), skipn_repeat_sub, map_const_repeat.
  now rewrite repeat_length.
Qed.

Lemma get_true_labels_length (n : nat) : length (get_true_labels n) = n.
Proof.
  rewrite get_true_labels_eq, length_app, !repeat_length.
  assert (Hh : n / 2 <= n) by (apply Nat.Div0.div_le_upper_bound; lia).
  lia.
Qed.

(** X8.  [InputFiltering.get_true_labels] has [defense_input_num] entries;
    entry [i] is [True] exactly when [i >= defense_input_num // 2]; so
    [defense_input_num // 2] entries are [False] and the others, one more
    when the number is odd, are [True]. *)
Theorem get_true_labels_halves :
  forall n : nat,
    length (get_true_labels n) = n
    /\ (forall i, i < n -> nth i (get_true_labels n) false = (n / 2 <=? i))
    /\ count_occ bool_dec (get_true_labels n) false = n / 2
    /\ count_occ bool_dec (get_true_labels n) true = n - n / 2.
Proof.
  intro n. rewrite get_true_labels_eq.
  assert (Hh : n / 2 <= n) by (apply Nat.Div0.div_le_upper_bound; lia).
  destruct (false_then_true (n / 2) (n - n / 2)) as (Hl & Hn & Ht & Hf).
  repeat split; try assumption.
  - rewrite Hl. lia.
  - intros i Hi. apply Hn. lia.
Qed.

Section PredLabels.

Variables X Data : Type.
Variable remove_misclassify : Data -> list (X * nat).
Variable add_mark : list X -> list X.
Variable check : list X -> bool -> list pyfloat.

Let loop := pred_loop remove_misclassify add_mark check.
Let sup := supplied remove_misclassify.
Let ne := nonempty_batches remove_misclassify.

(** With nothing asked for, nothing is scored. *)
Lemma pred_loop_zero (loader : list Data) cs ps :
  loop loader 0 cs ps = (cs, ps).
Proof. destruct loader; reflexivity. Qed.

(** With a positive counter the loop reads the whole loader: the counter
    stays positive, and every batch that has a correctly classified input
    adds one tensor of clean scores and one of poison scores. *)
Lemma pred_loop_batches (loader : list Data) :
  forall r cs ps,
    1 <= r ->
    exists cs' ps',
      loop loader r cs ps = (cs ++ cs', ps ++ ps')
      /\ length cs' = ne loader /\ length ps' = ne loader.
Proof.
  unfold loop, ne, nonempty_batches.
  induction loader as [|data rest IH]; intros r cs ps Hr; simpl.
  - exists [], []. now rewrite !app_nil_r.
  - destruct (Nat.eqb_spec r 0) as [->|_]; [lia|].
    rewrite !length_map.
    destruct (Nat.eqb_spec (length (remove_misclassify data)) 0) as [H0|H0];
      simpl.
    + apply IH. exact Hr.
    + destruct (Nat.ltb_spec (length (remove_misclassify data)) r) as [Hlt|Hge].
      * destruct (IH (r - length (remove_misclassify data))
                    (cs ++ [check (map fst (remove_misclassify data)) false])
                    (ps ++ [check (add_mark (map fst (remove_misclassify data)))
                              true]))
          as (cs' & ps' & Hloop & Hc & Hp); [lia|].
        eexists (_ :: cs'), (_ :: ps'). rewrite Hloop, <- !app_assoc. simpl.
        repeat split; now f_equal.
      * destruct (IH r
                    (cs ++ [check (firstn r (map fst (remove_misclassify data)))
                              false])
                    (ps ++ [check (add_mark
                                     (firstn r
                                        (map fst (remove_misclassify data))))
                              true]))
          as (cs' & ps' & Hloop & Hc & Hp); [lia|].
        eexists (_ :: cs'), (_ :: ps'). rewrite Hloop, <- !app_assoc. simpl.
        repeat split; now f_equal.
Qed.

(** X9.  [get_pred_labels] fails, with the [RuntimeError] of [torch.cat]
    on an empty list, exactly when [defense_input_num] is zero or no batch
    of the loader has a correctly classified input; otherwise it returns
    labels. *)
Theorem get_pred_labels_runtime_error :
  forall (defense_input_num : nat) (loader : list Data),
    (get_pred_labels remove_misclassify add_mark check defense_input_num
       loader = Raise RuntimeError
     <-> (defense_input_num = 0 \/ ne loader = 0))
    /\ (1 <= defense_input_num -> 1 <= ne loader ->
        exists labels,
          get_pred_labels remove_misclassify add_mark check
            defense_input_num loader = Ok labels).
Proof.
  intros n loader. unfold get_pred_labels. fold loop.
  destruct n as [|n].
  - rewrite pred_loop_zero. simpl. split; [tauto | lia].
  - destruct (pred_loop_batches loader [] [] (r := S n)) as
        (cs & ps & Hloop & Hc & Hp); [lia|].
    rewrite Hloop. simpl.
    destruct cs as [|c cs]; destruct ps as [|p ps]; simpl in *;
      try (rewrite <- Hc in Hp; discriminate).
    + split; [split; auto|]. intros _ H. rewrite <- Hc in H. lia.
    + split.
      * split; [discriminate|]. intros [H|H]; [discriminate|].
        rewrite <- Hc in H. discriminate.
      * intros _ _. eauto.
Qed.

Section OneScorePerInput.

Hypothesis check_length : forall xs b, length (check xs b) = length xs.
Hypothesis add_mark_length : forall xs, length (add_mark xs) = length xs.

(** The number of inputs scored lies between what was asked for, if the
    loader supplies it, and what the loader supplies; it is at least one
    per batch that has an input. *)
Lemma pred_loop_scored (loader : list Data) :
  forall r cs ps,
    1 <= r ->
    exists cs' ps',
      loop loader r cs ps = (cs ++ cs', ps ++ ps')
      /\ length (concat ps') = length (concat cs')
      /\ Nat.min r (sup loader) <= length (concat cs') <= sup loader
      /\ ne loader <= length (concat cs').
Proof.
  unfold loop, sup, supplied, ne, nonempty_batches.
  induction loader as [|data rest IH]; intros r cs ps Hr; simpl.
  - exists [], []. rewrite !app_nil_r. simpl. repeat split; lia.
  - destruct (Nat.eqb_spec r 0) as [->|_]; [lia|].
    rewrite !length_map, length_app.
    set (b := remove_misclassify data).
    destruct (Nat.eqb_spec (length b) 0) as [H0|H0]; simpl.
    + destruct (IH r cs ps Hr) as (cs' & ps' & Hloop & Hpc & Hb & Hn).
      exists cs', ps'. repeat split; try assumption; lia.
    + destruct (Nat.ltb_spec (length b) r) as [Hlt|Hge].
      * destruct (IH (r - length b)
                    (cs ++ [check (map fst b) false])
                    (ps ++ [check (add_mark (map fst b)) true]))
          as (cs' & ps' & Hloop & Hpc & Hb & Hn); [lia|].
        exists (check (map fst b) false :: cs'),
          (check (add_mark (map fst b)) true :: ps').
        rewrite Hloop, <- !app_assoc. simpl.
        rewrite !length_app, !check_length, add_mark_length, length_map.
        repeat split; try reflexivity; lia.
      * destruct (IH r
                    (cs ++ [check (firstn r (map fst b)) false])
                    (ps ++ [check (add_mark (firstn r (map fst b))) true]))
          as (cs' & ps' & Hloop & Hpc & Hb & Hn); [lia|].
        exists (check (firstn r (map fst b)) false :: cs'),
          (check (add_mark (firstn r (map fst b))) true :: ps').
        rewrite Hloop, <- !app_assoc. simpl.
        rewrite !length_app, !check_length, add_mark_length, length_firstn,
          length_map.
        repeat split; try reflexivity; lia.
Qed.

Lemma insert_score_length (x : pyfloat) (l : list pyfloat) :
  length (insert_score x l) = S (length l).
Proof.
  induction l as [|y l IH]; simpl; [reflexivity|].
  destruct (fsort_le x y); simpl; [reflexivity | now rewrite IH].
Qed.

Lemma sort_scores_length (l : list pyfloat) :
  length (sort_scores l) = length l.
Proof.
  induction l as [|x l IH]; simpl; [reflexivity|].
  now rewrite insert_score_length, IH.
Qed.

(** The labels returned, with the number of inputs scored. *)
Lemma get_pred_labels_scored :
  forall (defense_input_num : nat) (loader : list Data),
    1 <= defense_input_num ->
    1 <= ne loader ->
    exists labels scored,
      get_pred_labels remove_misclassify add_mark check defense_input_num
        loader = Ok labels
      /\ length labels = 2 * scored
      /\ Nat.min defense_input_num (sup loader) <= scored <= sup loader
      /\ ne loader <= scored.
Proof.
  intros n loader Hn Hne. unfold get_pred_labels. fold loop.
  destruct (pred_loop_scored loader [] [] Hn)
    as (cs & ps & Hloop & Hpc & Hb & Hnb).
  destruct (pred_loop_batches loader [] [] Hn)
    as (cs2 & ps2 & Hloop2 & Hc & Hp).
  rewrite Hloop in Hloop2. simpl in Hloop2. injection Hloop2 as <- <-.
  rewrite Hloop. simpl.
  destruct cs as [|c cs]; [simpl in Hc; lia|].
  destruct ps as [|p ps]; [simpl in Hp; lia|].
  unfold torch_cat_list.
  exists (score2label (sort_scores (concat (c :: cs)))
            (sort_scores (concat (p :: ps)))),
    (length (concat (c :: cs))).
  split; [reflexivity|].
  split; [|split; assumption].
  unfold score2label, to_bool, torch_cat.
  rewrite length_map, length_app, !sort_scores_length. lia.
Qed.

(** X10.  When [check] returns one score per input, the labels
    [get_pred_labels] returns are two per input scored, and the number of
    inputs scored is at least [defense_input_num], if the loader supplies
    as many correctly classified inputs, and at least one per batch that
    has one: the counter is not reset when a batch fills it, so later
    batches are scored as well. *)
Theorem get_pred_labels_length :
  forall (defense_input_num : nat) (loader : list Data),
    1 <= defense_input_num ->
    1 <= ne loader ->
    exists labels scored,
      get_pred_labels remove_misclassify add_mark check defense_input_num
        loader = Ok labels
      /\ length labels = 2 * scored
      /\ Nat.min defense_input_num (sup loader) <= scored <= sup loader
      /\ ne loader <= scored.
Proof.
  intros n loader Hn Hne.
  destruct (@get_pred_labels_scored n loader Hn Hne)
    as (labels & scored & H).
  exists labels, scored. exact H.
Qed.

(** X11.  Under the same condition, the predicted labels and the true
    labels have the same length exactly when the loader supplies exactly
    half of [defense_input_num] correctly classified inputs; when it
    supplies [defense_input_num] or more, the predicted labels are at
    least twice as many as the true ones. *)
Theorem get_pred_labels_true_labels_length :
  forall (defense_input_num : nat) (loader : list Data),
    1 <= defense_input_num ->
    1 <= ne loader ->
    exists labels,
      get_pred_labels remove_misclassify add_mark check defense_input_num
        loader = Ok labels
      /\ (length labels = length (get_true_labels defense_input_num)
          <-> 2 * sup loader = defense_input_num)
      /\ (defense_input_num <= sup loader ->
          2 * length (get_true_labels defense_input_num) <= length labels).
Proof.
  intros n loader Hn Hne.
  destruct (@get_pred_labels_scored n loader Hn Hne)
    as (labels & scored & Hget & Hlen & Hb & _).
  exists labels. split; [exact Hget|].
  rewrite get_true_labels_length, Hlen.
  split; [|lia].
  split; intro H; lia.
Qed.

End OneScorePerInput.

Lemma insert_score_In (x y : pyfloat) (l : list pyfloat) :
  In y (insert_score x l) -> y = x \/ In y l.
Proof.
  induction l as [|z l IH]; simpl.
  - intros [<-|[]]. now left.
  - destruct (fsort_le x z); simpl.
    + intros [<-|H]; [now left | now right].
    + intros [<-|H]; [right; now left|].
      destruct (IH H) as [->|H']; [now left | right; now right].
Qed.

Lemma sort_scores_In (y : pyfloat) (l : list pyfloat) :
  In y (sort_scores l) -> In y l.
Proof.
  induction l as [|x l IH]; simpl; [trivial|].
  intro H. apply insert_score_In in H. destruct H as [->|H].
  - now left.
  - right. now apply IH.
Qed.

(** Every tensor of scores the loop collects was returned by [check]. *)
Lemma pred_loop_scores (P : list pyfloat -> Prop) :
  (forall xs b, P (check xs b)) ->
  forall (loader : list Data) r cs ps,
    Forall P cs -> Forall P ps ->
    Forall P (fst (loop loader r cs ps))
    /\ Forall P (snd (loop loader r cs ps)).
Proof.
  intro Hcheck. unfold loop.
  induction loader as [|data rest IH]; intros r cs ps Hcs Hps; simpl.
  - now split.
  - destruct (r =? 0); [now split|].
    destruct (length (map snd (remove_misclassify data)) =? 0);
      [now apply IH|].
    destruct (length (map fst (remove_misclassify data)) <? r);
      apply IH; apply Forall_app; split; try assumption;
      constructor; auto.
Qed.

(** X15.  When [check] never returns a score of zero, every label that
    [get_pred_labels] returns is [True], those of the clean inputs
    included: the default [score2label] only tests the scores against
    zero. *)
Theorem get_pred_labels_nonzero_scores :
  forall (defense_input_num : nat) (loader : list Data)
         (labels : list bool),
    (forall xs b s, In s (check xs b) -> fnonzero s = true) ->
    get_pred_labels remove_misclassify add_mark check defense_input_num
      loader = Ok labels ->
    Forall (fun l => l = true) labels.
Proof.
  intros n loader labels Hcheck. unfold get_pred_labels. fold loop.
  destruct (@pred_loop_scores (Forall (fun s => fnonzero s = true))
              ltac:(intros xs b; apply Forall_forall; apply Hcheck)
              loader n [] [] (Forall_nil _) (Forall_nil _)) as [Hcs Hps].
  destruct (loop loader n [] []) as [cs ps]. simpl in Hcs, Hps.
  destruct cs as [|c cs]; [discriminate|].
  destruct ps as [|p ps]; [discriminate|].
  unfold torch_cat_list. intro H. injection H as <-.
  apply Forall_concat in Hcs, Hps.
  unfold score2label, to_bool, torch_cat.
  apply Forall_forall. intros l Hl. apply in_map_iff in Hl.
  destruct Hl as (s & <- & Hs). apply in_app_or in Hs.
  rewrite Forall_forall in Hcs, Hps.
  destruct Hs as [Hs|Hs]; apply sort_scores_In in Hs; auto.
Qed.

End PredLabels.

Lemma samples_check_nonzero (xs : list nat) (b : bool) (s : pyfloat) :
  In s (Samples.check xs b) -> fnonzero s = true.
Proof.
  unfold Samples.check. intro H. apply in_map_iff in H.
  destruct H as (x & <- & _).
  destruct b; unfold of_nat, fnonzero;
    (destruct (Qeq_bool _ _) eqn:E; [|reflexivity]);
    apply Qeq_bool_eq in E; unfold Qeq in E; simpl in E; lia.
Qed.

(** All eight labels of the four inputs scored are [True]. *)
Lemma get_pred_labels_nonzero_scores_witness :
  get_pred_labels Samples.remove_misclassify Samples.add_mark
    Samples.check 3 Samples.loader = Ok (repeat true 8)
  /\ Forall (fun l => l = true) (repeat true 8).
Proof.
  split; [vm_compute; reflexivity|].
  apply (@get_pred_labels_nonzero_scores _ _ Samples.remove_misclassify
           Samples.add_mark Samples.check 3 Samples.loader (repeat true 8)
           samples_check_nonzero).
  vm_compute. reflexivity.
Defined.

Lemma samples_check_length (xs : list nat) (b : bool) :
  length (Samples.check xs b) = length xs.
Proof. apply length_map. Qed.

Lemma get_pred_labels_runtime_error_witness :
  exists labels,
    get_pred_labels Samples.remove_misclassify Samples.add_mark
      Samples.check 3 Samples.loader = Ok labels.
Proof.
  destruct (get_pred_labels_runtime_error Samples.remove_misclassify
              Samples.add_mark Samples.check 3 Samples.loader) as [_ H].
  apply H; [lia|]. vm_compute. lia.
Defined.

(** Three inputs asked for, three batches of two: four inputs are scored,
    two from the first batch and one from each of the others. *)
Lemma get_pred_labels_length_witness :
  exists labels scored,
    get_pred_labels Samples.remove_misclassify Samples.add_mark
      Samples.check 3 Samples.loader = Ok labels
    /\ length labels = 2 * scored /\ 3 <= scored.
Proof.
  assert (H3 : 1 <= 3) by lia.
  destruct (@get_pred_labels_length _ _ Samples.remove_misclassify
              Samples.add_mark Samples.check samples_check_length
              (fun xs => eq_refl) 3 Samples.loader H3 H3)
    as (labels & scored & Hget & Hlen & Hb & Hne).
  exists labels, scored. split; [exact Hget|]. split; [exact Hlen|].
  vm_compute in Hb. lia.
Defined.

Lemma get_pred_labels_true_labels_length_witness :
  exists labels,
    get_pred_labels Samples.remove_misclassify Samples.add_mark
      Samples.check 3 Samples.loader = Ok labels
    /\ 2 * length (get_true_labels 3) <= length labels.
Proof.
  assert (H3 : 1 <= 3) by lia.
  destruct (@get_pred_labels_true_labels_length _ _
              Samples.remove_misclassify Samples.add_mark Samples.check
              samples_check_length (fun xs => eq_refl) 3 Samples.loader
              H3 H3)
    as (labels & Hget & _ & Hge).
  exists labels. split; [exact Hget|]. apply Hge. vm_compute. lia.
Defined.

End InputFilteringFacts.

Module TrainingFilteringFacts.

Import TrainingFiltering.

(** X12.  [TrainingFiltering.get_true_labels] has one entry per sample of
    the two datasets; entry [i] is [True] exactly when [i] is past the
    clean samples; so as many entries are [True] as there are poisoned
    samples. *)
Theorem get_true_labels_clean_then_poison :
  forall len_clean len_poison : nat,
    length (get_true_labels len_clean len_poison) = len_clean + len_poison
    /\ (forall i, i < len_clean + len_poison ->
          nth i (get_true_labels len_clean len_poison) false
          = (len_clean <=? i))
    /\ count_occ bool_dec (get_true_labels len_clean len_poison) true
       = len_poison
    /\ count_occ bool_dec (get_true_labels len_clean len_poison) false
       = len_clean.
Proof.
  intros c p. exact (false_then_true c p).
Qed.

(** [int(n * percent)] for a percentage between 0 and 1 lies between 0
    and [n]. *)
Lemma to_int_percent (n : Z) (q : Q) :
  (0 < n)%Z -> (0 <= q)%Q -> (q <= 1)%Q ->
  exists pn, to_int (fmul (of_Z n) (Fin q)) = Return pn /\ (0 <= pn <= n)%Z.
Proof.
  intros Hn Hq0 Hq1. unfold to_int, fmul, of_Z.
  eexists. split; [reflexivity|].
  set (r := Qred (inject_Z n * q)).
  assert (Hr : (r == inject_Z n * q)%Q) by apply Qred_correct.
  assert (Hn0 : (0 <= inject_Z n)%Q) by (unfold Qle; simpl; lia).
  assert (Hr0 : (0 <= r)%Q).
  { rewrite Hr. now apply Qmult_le_0_compat. }
  assert (Hr1 : (r <= inject_Z n)%Q).
  { rewrite Hr. rewrite <- (Qmult_1_r (inject_Z n)) at 2.
    rewrite !(Qmult_comm (inject_Z n)).
    now apply Qmult_le_compat_r. }
  unfold Qle in Hr0, Hr1. simpl in Hr0, Hr1.
  rewrite Z.quot_div_nonneg by lia.
  split.
  - apply Z.div_pos; lia.
  - apply Z.div_le_upper_bound; lia.
Qed.

Section MixDataset.

Variables X G : Type.
Variable sample_batch :
  G -> dataset X -> Z -> Result ((list X * list nat) * G).

(** X13.  [get_mix_dataset] samples nothing when [defense_input_num] is
    [None] or zero: it returns the training dataset and the poisoned
    dataset as they are.  With any other [defense_input_num] and the train
    mode ['dataset'], it raises [UnboundLocalError]: the datasets it
    returns are only assigned in the other train modes. *)
Theorem get_mix_dataset_unsampled :
  forall (self : TrainingFiltering) (train_set poison_set : dataset X)
         (g : G),
    ((defense_input_num self = None \/ defense_input_num self = Some 0%Z) ->
     get_mix_dataset sample_batch self train_set poison_set g
     = Return ((train_set, poison_set), g))
    /\ (forall n, defense_input_num self = Some n -> n <> 0%Z ->
                  train_mode self = "dataset"%string ->
                  get_mix_dataset sample_batch self train_set poison_set g
                  = Throw (UnboundLocalError "clean_dataset")).
Proof.
  intros self t p g. unfold get_mix_dataset. split.
  - intros [-> | ->]; reflexivity.
  - intros n -> Hn ->. destruct n; [congruence | reflexivity | reflexivity].
Qed.

Hypothesis batch_size : samples_batch_size sample_batch.


End MixDataset.

Lemma samples_batch_size_holds :
  samples_batch_size Samples.sample_batch.
Proof.
  intros g d k xs ls g' _. unfold Samples.sample_batch.
  destruct (Z.leb_spec 0 k) as [Hk|Hk]; simpl; [|discriminate].
  destruct (Nat.leb_spec (Z.to_nat k) (len d)) as [Hl|Hl]; [|discriminate].
  intro H. injection H as <- _ _.
  rewrite length_firstn. unfold len in Hl. lia.
Qed.

Lemma get_mix_dataset_unsampled_witness :
  get_mix_dataset Samples.sample_batch
    {| defense_input_num := Some 4%Z; train_mode := "dataset";
       poison_percent := Fin (1 # 4)%Q |}
    Samples.train_set Samples.poison_set tt
  = Throw (UnboundLocalError "clean_dataset").
Proof.
  destruct (get_mix_dataset_unsampled Samples.sample_batch
              {| defense_input_num := Some 4%Z; train_mode := "dataset";
                 poison_percent := Fin (1 # 4)%Q |}
              Samples.train_set Samples.poison_set tt) as [_ H].
  apply (H 4%Z); [reflexivity | discriminate | reflexivity].
Defined.


End TrainingFilteringFacts.

(* ------------------------------------------------------------------ *)
(** ** Early stopping *)

Section EarlyStop.

Context {B : Backend}.
Variable self : ModelInspection.
Variable label : nat.

(** An epoch ends in [break] exactly when the hook is true of its
    averages. *)
Lemma epoch_body_stop (st st' : mark_loop) (stop : bool) (w w' : World) :
  epoch_body self label st w = Ok ((st', stop), w') ->
  stop = stops self (ms st').
Proof.
  unfold epoch_body, bind, with_gen.
  destruct (train_loader (gen w)) as [loader g].
  destruct (batch_loop _ _ _ _ _) as [[st1 w1]|e]; [|discriminate].
  unfold get_mark. destruct (mark w1); [|discriminate].
  unfold ret. intro H. injection H as <- <- _. reflexivity.
Qed.

(** A loop that the hook has stopped runs no further epoch. *)
Lemma epoch_loop_stopped (k : nat) :
  forall (n : nat) (st sk : mark_loop) (w wk : World),
    1 <= k -> k <= n ->
    epoch_loop self label k st w = Ok (sk, wk) ->
    stops self (ms sk) = true ->
    epoch_loop self label n st w = Ok (sk, wk).
Proof.
  induction k as [|k IH]; intros n st sk w wk Hk Hn Hrun Hstop; [lia|].
  destruct n as [|n]; [lia|]. simpl in *. unfold bind in *.
  destruct (epoch_body self label st w) as [[[st1 stop] w1]|e] eqn:Hbody;
    [|discriminate].
  simpl in *. destruct stop; [exact Hrun|].
  destruct k as [|k].
  - simpl in Hrun. unfold ret in Hrun. injection Hrun as <- <-.
    apply epoch_body_stop in Hbody. congruence.
  - apply IH; try lia; assumption.
Qed.

(** Without a stop, a loop of [n + m] epochs is a loop of [n] epochs
    followed by one of [m]. *)
Lemma epoch_loop_app (n m : nat) :
  (forall loss acc norm entropy,
      check_early_stop self loss acc norm entropy = false) ->
  forall (st : mark_loop) (w : World),
    epoch_loop self label (n + m) st w
    = (st' <- epoch_loop self label n st ;; epoch_loop self label m st') w.
Proof.
  intro Hnever. induction n as [|n IH]; intros st w; [reflexivity|].
  simpl. unfold bind in *.
  destruct (epoch_body self label st w) as [[[st1 stop] w1]|e] eqn:Hbody;
    [|reflexivity].
  apply epoch_body_stop in Hbody. unfold stops in Hbody.
  rewrite Hnever in Hbody. subst stop. simpl. apply IH.
Qed.

End EarlyStop.

(** X16.  Once [check_early_stop] is true of the averages of an epoch, no
    further epoch is run: if the run of [k >= 1] epochs ends with averages
    that the hook accepts, the run of any [n >= k] epochs ends in the same
    state, and [optimize_mark] with [n] epochs returns the best mark and
    entropy of the run of [k] epochs. *)
Theorem optimize_run_early_stop :
  forall (B : Backend) (self : ModelInspection) (label k n : nat)
         (w wk : World) (sk : mark_loop),
    1 <= k -> k <= n ->
    optimize_run self label k w = Ok (sk, wk) ->
    stops self (ms sk) = true ->
    optimize_run self label n w = Ok (sk, wk)
    /\ (defense_remask_epoch self = n ->
        optimize_mark self label w
        = Ok ((mark_best (bst sk), entropy_best (bst sk)),
              {| mark := mark_best (bst sk); gen := gen wk |})).
Proof.
  intros B self label k n w wk sk Hk Hn Hrun Hstop.
  assert (Hn' : optimize_run self label n w = Ok (sk, wk)).
  { revert Hrun. unfold optimize_run, bind.
    destruct (optimize_init w) as [[st0 w0]|e]; [|discriminate].
    intro Hrun. eapply epoch_loop_stopped; eassumption. }
  split; [exact Hn'|].
  intro He. apply optimize_mark_eq. rewrite He. exact Hn'.
Qed.

(** X17.  With a hook that never stops, as the one of the base class, the
    run of [n + m] epochs is the run of [n] epochs continued for [m]
    epochs: every epoch asked for is run. *)
Theorem optimize_run_add_epochs :
  forall (B : Backend) (self : ModelInspection) (label n m : nat)
         (w : World),
    (forall loss acc norm entropy,
        check_early_stop self loss acc norm entropy = false) ->
    optimize_run self label (n + m) w
    = (st <- optimize_run self label n ;; epoch_loop self label m st) w.
Proof.
  intros B self label n m w Hnever. unfold optimize_run, bind.
  destruct (optimize_init w) as [[st0 w0]|e]; [|reflexivity].
  rewrite (epoch_loop_app self label n m Hnever). reflexivity.
Qed.

(** Five epochs asked for, the hook accepts the third: the run is that of
    three epochs. *)
Lemma optimize_run_early_stop_witness :
  exists sk wk,
    @optimize_run (Toy.backend false) (ToyStop.inspection 5 1) 0 3
      (Toy.world false) = Ok (sk, wk)
    /\ @optimize_run (Toy.backend false) (ToyStop.inspection 5 1) 0 5
         (Toy.world false) = Ok (sk, wk).
Proof.
  destruct (@optimize_run (Toy.backend false) (ToyStop.inspection 5 1) 0 3
              (Toy.world false)) as [[sk wk]|e] eqn:Hrun;
    [|vm_compute in Hrun; discriminate].
  exists sk, wk. split; [reflexivity|].
  assert (Hstop : stops (ToyStop.inspection 5 1) (ms sk) = true).
  { vm_compute in Hrun. injection Hrun as <- _. vm_compute. reflexivity. }
  apply (@optimize_run_early_stop (Toy.backend false)
           (ToyStop.inspection 5 1) 0 3 5 (Toy.world false) wk sk
           (le_S 1 2 (le_S 1 1 (le_n 1))) (le_S 3 4 (le_S 3 3 (le_n 3)))
           Hrun Hstop).
Defined.

Lemma optimize_run_add_epochs_witness :
  @optimize_run (Toy.backend false) (Toy.inspection 3 1) 0 (1 + 2)
    (Toy.world false)
  = (st <- @optimize_run (Toy.backend false) (Toy.inspection 3 1) 0 1 ;;
     epoch_loop (Toy.inspection 3 1) 0 2 st) (Toy.world false).
Proof.
  apply (@optimize_run_add_epochs (Toy.backend false) (Toy.inspection 3 1)
           0 1 2 (Toy.world false)).
  intros loss acc norm entropy. reflexivity.
Defined.

(* ------------------------------------------------------------------ *)
(** ** ModelInspection.detect: the mark it leaves in the attack *)

Lemma last_app_singleton {A : Type} (l : list A) (x d : A) :
  last (l ++ [x]) d = x.
Proof. apply last_last. Qed.

Lemma getitem_nth {A : Type} (l : list A) (i : nat) (d : A) :
  i < length l -> getitem l i = Ok (nth i l d).
Proof.
  intro Hi. unfold getitem.
  destruct (nth_error l i) as [a|] eqn:Ha.
  - now rewrite (nth_error_nth _ _ d Ha).
  - apply nth_error_None in Ha. lia.
Qed.

Lemma getitem_out_of_range {A : Type} (l : list A) (i : nat) :
  length l <= i -> getitem l i = Raise IndexError.
Proof.
  intro Hi. unfold getitem. apply nth_error_None in Hi. now rewrite Hi.
Qed.

(** Marks of one shape with at least one channel have a mask norm each. *)
Lemma mask_norms_of_ok (s : list (list nat)) (l : list tensor) :
  s <> [] ->
  Forall (fun t => shape_of t = s) l ->
  exists norms,
    mask_norms_of l = Ok norms
    /\ length norms = length l
    /\ forall i, i < length l ->
         exists ch, getitem_last (nth i l []) = Ok ch
                    /\ nth i norms NaN = norm_p1 ch.
Proof.
  intros Hs Hall. induction Hall as [|t l Ht Hl IH].
  - exists []. repeat split. intros i Hi. inversion Hi.
  - destruct IH as (norms & Hn & Hlen & Hnth).
    assert (Hne : t <> []).
    { intro Hnil. apply Hs. rewrite <- Ht, Hnil. reflexivity. }
    destruct (getitem_last_ok Hne) as [ch Hch].
    exists (norm_p1 ch :: norms). simpl. rewrite Hch, Hn.
    repeat split; [now f_equal|].
    intros [|i] Hi.
    + exists ch. now split.
    + apply Hnth. lia.
Qed.

Section SweepMark.

Context {B : Backend} {SP : ShapePreserving B}.
Variable self : ModelInspection.
Hypothesis epochs_pos : 1 <= defense_remask_epoch self.
Variable s : list (list nat).
Hypothesis s_not_nil : s <> [].

(** After the loop over the labels, the attack holds the mark returned for
    the last label. *)
Lemma sweep_loop_last_mark (labels : list nat) :
  forall (ml : list (option tensor)) (ll : list (option pyfloat))
         (w w' : World) (mk : tensor) r,
    mark w = Some mk ->
    shape_of mk = s ->
    sweep_loop self labels ml ll w = Ok (r, w') ->
    labels <> [] ->
    mark w' = last (fst r) None.
Proof.
  induction labels as [|label rest IH]; intros ml ll w w' mk r Hmk Hsh H Hne;
    [congruence|].
  destruct (optimize_mark_ok self epochs_pos s_not_nil label w Hmk Hsh)
    as (m & e & w1 & Hopt & Hm1 & Hsh1).
  simpl in H. unfold bind in H. rewrite Hopt in H. simpl in H.
  destruct rest as [|l2 rest].
  - simpl in H. unfold ret in H. injection H as <- <-. simpl.
    now rewrite last_app_singleton.
  - eapply IH; [exact Hm1 | exact Hsh1 | exact H | discriminate].
Qed.

End SweepMark.



(* ------------------------------------------------------------------ *)
(** ** TrojanNN.get_neuron_value *)

Lemma nonneg_fabs (x : pyfloat) : nonneg_or_nan (fabs x).
Proof.
  destruct x as [q| | |]; simpl; [right|right|right|left]; try reflexivity.
  simpl. apply Qle_bool_iff. apply Qabs_nonneg.
Qed.

Lemma nonneg_fadd (x y : pyfloat) :
  nonneg_or_nan x -> nonneg_or_nan y -> nonneg_or_nan (fadd x y).
Proof.
  intros [->|Hx] [->|Hy]; try (left; destruct x; reflexivity);
    try (left; reflexivity).
  destruct x as [a| | |], y as [b| | |]; simpl in *; try discriminate;
    try (right; reflexivity).
  right. apply Qle_bool_iff in Hx, Hy. apply Qle_bool_iff.
  pose proof (Qred_correct (a + b)) as Hr. rewrite Hr.
  rewrite <- (Qplus_0_r 0). now apply Qplus_le_compat.
Qed.

Lemma nonneg_fsum_from (l : list pyfloat) :
  forall acc, nonneg_or_nan acc -> Forall nonneg_or_nan l ->
              nonneg_or_nan (fold_left fadd l acc).
Proof.
  induction l as [|x l IH]; intros acc Hacc Hl; simpl; [exact Hacc|].
  inversion Hl; subst. apply IH; [now apply nonneg_fadd | assumption].
Qed.

Lemma nonneg_fmean (l : list pyfloat) :
  Forall nonneg_or_nan l -> nonneg_or_nan (fmean l).
Proof.
  intro Hl. unfold fmean, fdiv_nat.
  destruct (length l) as [|n]; [now left|].
  assert (Hs : nonneg_or_nan (fsum l)).
  { apply nonneg_fsum_from; [|exact Hl]. right. reflexivity. }
  destruct Hs as [->|Hs]; [now left|].
  destruct (fsum l) as [a| | |]; simpl in *; try discriminate.
  - right. apply Qle_bool_iff in Hs. apply Qle_bool_iff.
    pose proof (Qred_correct (a * (1 # Pos.of_nat (S n)))) as Hr.
    rewrite Hr. apply Qmult_le_0_compat; [exact Hs|].
    unfold Qle. simpl. lia.
  - right. reflexivity.
Qed.

Lemma nonneg_map_fabs (l : list pyfloat) : Forall nonneg_or_nan (map fabs l).
Proof.
  apply Forall_forall. intros x Hx. apply in_map_iff in Hx.
  destruct Hx as (y & <- & _). apply nonneg_fabs.
Qed.

(** The mean over all entries of the absolute values, after the mean over
    the trailing dimensions, is not negative. *)
Lemma nonneg_mean_abs (t : ndtensor) :
  nonneg_or_nan (fmean (concat (mean_trailing (nd_abs t)))).
Proof.
  apply nonneg_fmean. apply Forall_concat.
  destruct t as [m|t]; simpl.
  - apply Forall_forall. intros row Hrow. apply in_map_iff in Hrow.
    destruct Hrow as (r & <- & _). apply nonneg_map_fabs.
  - apply Forall_forall. intros row Hrow. apply in_map_iff in Hrow.
    destruct Hrow as (sample & <- & Hs). apply in_map_iff in Hs.
    destruct Hs as (sample0 & <- & _).
    apply Forall_forall. intros x Hx. apply in_map_iff in Hx.
    destruct Hx as (r & <- & Hr). apply in_map_iff in Hr.
    destruct Hr as (r0 & <- & _). apply nonneg_fmean, nonneg_map_fabs.
Qed.

Lemma take_indices_ok {A : Type} (row : list A) (idx : list nat) :
  Forall (fun i => i < length row) idx ->
  exists l, take_indices row idx = Ok l /\ length l = length idx.
Proof.
  induction 1 as [|i idx Hi Hidx IH]; simpl.
  - now exists [].
  - destruct (nth_error row i) as [a|] eqn:Ha.
    + destruct IH as (l & -> & Hl). exists (a :: l). simpl. now rewrite Hl.
    + apply nth_error_None in Ha. lia.
Qed.

Lemma take_indices_error {A : Type} (row : list A) (idx : list nat) (i : nat) :
  In i idx -> length row <= i -> take_indices row idx = Raise IndexError.
Proof.
  intros Hin Hi. induction idx as [|j idx IH]; [contradiction|]. simpl.
  destruct (nth_error row j) as [a|] eqn:Ha; [|reflexivity].
  destruct Hin as [->|Hin].
  - apply nth_error_None in Hi. congruence.
  - now rewrite (IH Hin).
Qed.

Lemma select_rows_ok {A : Type} (n : nat) (rows : list (list A))
  (idx : list nat) :
  Forall (fun row => length row = n) rows ->
  Forall (fun i => i < n) idx ->
  exists rs, select_rows rows idx = Ok rs
             /\ Forall (fun r => length r = length idx) rs.
Proof.
  intros Hrows Hidx. induction Hrows as [|row rows Hrow Hrows IH]; simpl.
  - exists []. split; [reflexivity | constructor].
  - destruct (@take_indices_ok A row idx) as (r & -> & Hr).
    { rewrite Hrow. exact Hidx. }
    destruct IH as (rs & -> & Hrs). exists (r :: rs).
    split; [reflexivity | now constructor].
Qed.

Lemma select_rows_error {A : Type} (n : nat) (rows : list (list A))
  (idx : list nat) (i : nat) :
  rows <> [] ->
  Forall (fun row => length row = n) rows ->
  In i idx -> n <= i ->
  select_rows rows idx = Raise IndexError.
Proof.
  intros Hne Hrows Hin Hi. destruct rows as [|row rows]; [congruence|].
  inversion Hrows; subst. simpl.
  rewrite (@take_indices_error A row idx i Hin Hi). reflexivity.
Qed.

Lemma concat_all_nil {A : Type} (l : list (list A)) :
  Forall (fun r => length r = 0) l -> concat l = [].
Proof.
  induction 1 as [|r l Hr Hl IH]; [reflexivity|]. simpl. rewrite IH.
  destruct r; [reflexivity | discriminate].
Qed.

Section NeuronValueFacts.

Context {B : Backend}.

(** With every index below the number of neurons, the neuron value is
    computed, and it is not negative; with no index it is not a number. *)
Lemma get_neuron_value_in_range (x : Inp) (idx : list nat) (n : nat) :
  has_neurons n (get_layer x) ->
  Forall (fun i => i < n) idx ->
  exists v, get_neuron_value x idx = Ok v
            /\ nonneg_or_nan v /\ (idx = [] -> v = NaN).
Proof.
  intros Hn Hidx. unfold get_neuron_value, nd_select.
  destruct (get_layer x) as [m|t]; destruct Hn as [_ Hrows];
    destruct (select_rows_ok Hrows Hidx) as (rs & -> & Hrs);
    eexists; (split; [reflexivity|]); (split; [apply nonneg_mean_abs|]);
    intros ->; simpl in *.
  - rewrite concat_all_nil; [reflexivity|].
    apply Forall_forall. intros r Hr. apply in_map_iff in Hr.
    destruct Hr as (r0 & <- & Hr0). rewrite length_map.
    rewrite Forall_forall in Hrs. now apply Hrs.
  - rewrite concat_all_nil; [reflexivity|].
    apply Forall_forall. intros r Hr. apply in_map_iff in Hr.
    destruct Hr as (r0 & <- & Hr0). apply in_map_iff in Hr0.
    destruct Hr0 as (r1 & <- & Hr1). rewrite !length_map.
    rewrite Forall_forall in Hrs. now apply Hrs.
Qed.

End NeuronValueFacts.

(** X19.  On the output of a layer with [n] neurons for at least one
    sample, [get_neuron_value] raises [IndexError] when an index is not
    below [n]; when every index is below [n] it returns a value that is
    not negative or is not a number, and that is not a number when there
    is no index. *)
Theorem get_neuron_value_bounds :
  forall (B : Backend) (trigger_input : Inp) (neuron_idx : list nat)
         (n : nat),
    has_neurons n (get_layer trigger_input) ->
    ((exists i, In i neuron_idx /\ n <= i) ->
     get_neuron_value trigger_input neuron_idx = Raise IndexError)
    /\ (Forall (fun i => i < n) neuron_idx ->
        exists v, get_neuron_value trigger_input neuron_idx = Ok v
                  /\ nonneg_or_nan v /\ (neuron_idx = [] -> v = NaN)).
Proof.
  intros B x idx n Hn. split.
  - intros (i & Hin & Hi). unfold get_neuron_value, nd_select.
    destruct (get_layer x) as [m|t]; destruct Hn as [Hne Hrows];
      now rewrite (@select_rows_error _ n _ idx i Hne Hrows Hin Hi).
  - now apply get_neuron_value_in_range.
Qed.

(** X20.  When the layer has at least as many neurons as the weight of
    the next layer has columns, the neuron value of the neurons that
    [get_neuron_idx] selects is computed without an [IndexError]; it is
    not negative, and it is not a number when [neuron_num] is zero. *)
Theorem get_neuron_value_selected :
  forall (B : Backend) (self : TrojanNN) (weight : ndtensor)
         (trigger_input : Inp) (n : nat),
    has_neurons n (get_layer trigger_input) ->
    length (neuron_weight weight) <= n ->
    exists v,
      get_neuron_value trigger_input (get_neuron_idx self weight) = Ok v
      /\ nonneg_or_nan v
      /\ (neuron_num self = 0 -> v = NaN).
Proof.
  intros B self weight x n Hn Hlen.
  destruct (@get_neuron_value_in_range B x (get_neuron_idx self weight) n Hn)
    as (v & Hv & Hpos & Hnan).
  { apply Forall_forall. intros i Hi. unfold get_neuron_idx in Hi.
    apply In_firstn in Hi.
    apply (Permutation_in _ (Permutation_sym (argsort_perm _))) in Hi.
    apply in_seq in Hi. lia. }
  exists v. split; [exact Hv|]. split; [exact Hpos|].
  intro H0. apply Hnan. unfold get_neuron_idx. now rewrite H0.
Qed.

Lemma toy_has_neurons (d : bool) (x : @Inp (Toy.backend d)) :
  has_neurons 2 (@get_layer (Toy.backend d) x).
Proof.
  simpl. split; [discriminate|]. repeat constructor.
Qed.

(** A layer of two neurons: index 2 is out of range, and the value of
    neuron 1 is 2. *)
Lemma get_neuron_value_bounds_witness :
  @get_neuron_value (Toy.backend false) 0 [2] = Raise IndexError
  /\ @get_neuron_value (Toy.backend false) 0 [1] = Ok (Fin 2%Q).
Proof.
  destruct (@get_neuron_value_bounds (Toy.backend false) 0 [2] 2
              (@toy_has_neurons false 0)) as [Herr _].
  split; [|vm_compute; reflexivity].
  apply Herr. exists 2. split; [now left | lia].
Defined.

(** The neuron of least weight of the small framework is neuron 0, whose
    value is 1. *)
Lemma get_neuron_value_selected_witness :
  exists v,
    @get_neuron_value (Toy.backend false) 0
      (get_neuron_idx Toy.attack Toy.weight) = Ok v
    /\ nonneg_or_nan v.
Proof.
  destruct (@get_neuron_value_selected (Toy.backend false) Toy.attack
              Toy.weight 0 2 (@toy_has_neurons false 0)
              (le_n 2)) as (v & Hv & Hpos & _).
  exists v. split; assumption.
Defined.
